(** * CustomPMM: the quoting core of custom_pmm_no_config.py

    A shallow embedding of the [CustomPMM] script strategy and the
    properties of its per-tick decision.

    Numeric model.  The strategy mixes numpy/Python binary64 floats with
    [decimal.Decimal] values.  The embedding of the whole tick computes
    exactly:
    - a [Decimal] is a real number (finite Decimals only);
    - a float is an [npfloat]: a real number or one of the special values
      NaN, -inf, +inf, with the IEEE rules for the special values and
      exact real arithmetic on finite ones (no rounding, no overflow, one
      zero).
    Python rounds every float operation to binary64 and every Decimal
    operation to 28 significant digits.  Where a property depends on
    that, the arithmetic lines are embedded again: with a rounding
    function applied after every operation ([scale_rounded],
    [skewed_amounts_rounded], [create_proposal_rounded]), on binary64
    itself ([Binary64]) and on 28-digit decimals ([Decimal28]).

    Calls to the connector, the logger and the order API are recorded, in
    call order, in a trace of [call]s; the strategy's own fields are the
    record [strategy]. *)

From Stdlib Require Import ZArith Floats.
From Stdlib Require Import String Ascii.
From Stdlib Require Import Reals Lra Lia List Bool PeanoNat.
Import ListNotations.
Open Scope R_scope.

(** ** Floats *)

Inductive npfloat : Type :=
| NaN
| NegInf
| PosInf
| Fin (r : R).

Definition Rltb (a b : R) : bool := if Rlt_dec a b then true else false.
Definition Rleb (a b : R) : bool := if Rle_dec a b then true else false.
Definition Reqb (a b : R) : bool := if Req_dec_T a b then true else false.

Definition fneg (a : npfloat) : npfloat :=
  match a with
  | NaN => NaN
  | NegInf => PosInf
  | PosInf => NegInf
  | Fin r => Fin (- r)
  end.

Definition fadd (a b : npfloat) : npfloat :=
  match a, b with
  | NaN, _ | _, NaN => NaN
  | PosInf, NegInf | NegInf, PosInf => NaN
  | PosInf, _ | _, PosInf => PosInf
  | NegInf, _ | _, NegInf => NegInf
  | Fin x, Fin y => Fin (x + y)
  end.

Definition fsub (a b : npfloat) : npfloat := fadd a (fneg b).

(** An infinity scaled by a finite factor [r]. *)
Definition inf_times (inf : npfloat) (r : R) : npfloat :=
  if Reqb r 0 then NaN else if Rltb 0 r then inf else fneg inf.

Definition fmul (a b : npfloat) : npfloat :=
  match a, b with
  | NaN, _ | _, NaN => NaN
  | Fin x, Fin y => Fin (x * y)
  | Fin x, inf => inf_times inf x
  | inf, Fin y => inf_times inf y
  | PosInf, PosInf | NegInf, NegInf => PosInf
  | PosInf, NegInf | NegInf, PosInf => NegInf
  end.

(** numpy's true division: a zero divisor gives an infinity or NaN (with a
    warning), never an exception. *)
Definition fdiv (a b : npfloat) : npfloat :=
  match a, b with
  | NaN, _ | _, NaN => NaN
  | Fin x, Fin y =>
      if Reqb y 0
      then (if Reqb x 0 then NaN else if Rltb 0 x then PosInf else NegInf)
      else Fin (x / y)
  | Fin _, _ => Fin 0
  | inf, Fin y => if Rltb y 0 then fneg inf else inf
  | _, _ => NaN
  end.

Definition fexp (a : npfloat) : npfloat :=
  match a with
  | NaN => NaN
  | NegInf => Fin 0
  | PosInf => PosInf
  | Fin r => Fin (exp r)
  end.

Definition flog (a : npfloat) : npfloat :=
  match a with
  | NaN | NegInf => NaN
  | PosInf => PosInf
  | Fin r => if Rltb 0 r then Fin (ln r) else if Reqb r 0 then NegInf else NaN
  end.

Definition fsqrt (a : npfloat) : npfloat :=
  match a with
  | NaN | NegInf => NaN
  | PosInf => PosInf
  | Fin r => if Rltb r 0 then NaN else Fin (sqrt r)
  end.

(** [x <= 0] and [x == 0] on floats: every comparison with NaN is false. *)
Definition fle0 (a : npfloat) : bool :=
  match a with
  | NaN | PosInf => false
  | NegInf => true
  | Fin r => Rleb r 0
  end.

Definition feq0 (a : npfloat) : bool :=
  match a with
  | Fin r => Reqb r 0
  | _ => false
  end.

Definition isnan (a : npfloat) : bool :=
  match a with
  | NaN => true
  | _ => false
  end.

Definition isfinite (a : npfloat) : bool :=
  match a with
  | Fin _ => true
  | _ => false
  end.

(** ** The numpy array functions used by the strategy *)

Definition np_sum (a : list npfloat) : npfloat := fold_left fadd a (Fin 0).

(** [np.diff]: [out[i] = a[i+1] - a[i]]. *)
Fixpoint np_diff (a : list npfloat) : list npfloat :=
  match a with
  | x :: (y :: _) as t => fsub y x :: np_diff t
  | _ => []
  end.

(** [np.std] with the default [ddof = 0]: the mean is the sum over the
    count, the result the square root of the mean squared deviation. *)
Definition np_std (a : list npfloat) : npfloat :=
  let n := Fin (INR (length a)) in
  let arrmean := fdiv (np_sum a) n in
  let x := map (fun v => fsub v arrmean) a in
  let x := map (fun v => fmul v v) x in
  fsqrt (fdiv (np_sum x) n).

(** ** calculate_volatility *)

Definition Decimal : Type := R.

(** [float(p)] of a finite Decimal. *)
Definition float (p : Decimal) : npfloat := Fin p.

(** Lines 81-87, on the array [prices]. *)
Definition volatility_of_prices (prices : list npfloat) : npfloat :=
  if existsb fle0 prices then Fin 0.0001
  else
    let returns := np_diff (map flog prices) in
    let volatility := np_std returns in
    if isnan volatility || feq0 volatility then Fin 0.0001 else volatility.

Definition calculate_volatility (ref_prices : list Decimal) : npfloat :=
  let prices := map float ref_prices in
  volatility_of_prices prices.

(** ** Framework types (hummingbot) *)

Inductive TradeType : Type := BUY | SELL | RANGE.
Inductive OrderType : Type := MARKET | LIMIT | LIMIT_MAKER.
Inductive PriceType : Type := BestBid | BestAsk | MidPrice | LastTrade.

Record OrderCandidate : Type := mkOrderCandidate {
  trading_pair_of : string;
  is_maker : bool;
  order_type : OrderType;
  order_side : TradeType;
  amount : Decimal;
  price : Decimal
}.

(** An order returned by [get_active_orders]. *)
Record LimitOrder : Type := mkLimitOrder {
  lo_trading_pair : string;
  client_order_id : string
}.

Record OrderFilledEvent : Type := mkOrderFilledEvent {
  ev_trade_type : TradeType;
  ev_amount : Decimal;
  ev_trading_pair : string;
  ev_price : Decimal
}.

(** What the framework answers during one call of the strategy: the
    connector's prices and balances, its budget checker, the resting
    orders, and the clock. *)
Record host : Type := mkHost {
  get_price_by_type : string -> PriceType -> Decimal;
  get_balance : string -> Decimal;
  adjust_candidates : list OrderCandidate -> bool -> list OrderCandidate;
  get_active_orders : string -> list LimitOrder;
  current_timestamp : R
}.

(** The calls the strategy makes on the framework, in call order.  The
    text of a log message is kept as its arguments. *)
Inductive call : Type :=
| LoggerInfo (collected maxlen : nat)
| LoggerWarning (msg : string)
| Cancel (exchange trading_pair client_order_id : string)
| Buy (connector_name trading_pair : string) (amount : Decimal)
      (order_type : OrderType) (price : Decimal)
| Sell (connector_name trading_pair : string) (amount : Decimal)
       (order_type : OrderType) (price : Decimal)
| LogWithClock (e : OrderFilledEvent) (exchange : string)
| NotifyHbApp (e : OrderFilledEvent) (exchange : string).

Definition is_cancel (c : call) : bool :=
  match c with Cancel _ _ _ => true | _ => false end.

Definition is_submit (c : call) : bool :=
  match c with Buy _ _ _ _ _ | Sell _ _ _ _ _ => true | _ => false end.

(** Whether a trace holds a cancel or a submit (buy or sell) call. *)
Definition touches_orders (calls : list call) : bool :=
  existsb (fun c => is_cancel c || is_submit c) calls.

(** ** Exceptions *)

Inductive exn : Type := ValueError | InvalidOperation.

Inductive result (A : Type) : Type :=
| Ok (a : A)
| Raised (e : exn).
Arguments Ok {A} a.
Arguments Raised {A} e.

Definition bind {A B : Type} (m : result A) (k : A -> result B) : result B :=
  match m with
  | Ok a => k a
  | Raised e => Raised e
  end.

Notation "x <- m ;; k" := (bind m (fun x => k))
  (at level 61, m at next level, right associativity).

(** [Decimal(x)] of a float is exact.  Of a non-finite float it is a
    special Decimal, which this embedding of finite Decimals does not
    hold: the conversion raises here, where Python raises
    [InvalidOperation] at the first trapping use of the value.  A tick
    never gets there ([on_tick_returns]). *)
Definition Decimal_of_float (x : npfloat) : result Decimal :=
  match x with
  | Fin r => Ok r
  | _ => Raised InvalidOperation
  end.

(** ** Strings: [str.split] on a one-character separator *)

Fixpoint split_aux (sep : ascii) (s : string) (cur : string) : list string :=
  match s with
  | EmptyString => [cur]
  | String c rest =>
      if Ascii.eqb c sep then cur :: split_aux sep rest EmptyString
      else split_aux sep rest (cur ++ String c EmptyString)
  end.

Definition split (s : string) (sep : ascii) : list string :=
  split_aux sep s EmptyString.

(** ** The strategy *)

Record strategy : Type := mkStrategy {
  ref_prices : list Decimal;
  create_timestamp : R
}.

Definition bid_spread : npfloat := Fin 0.01.
Definition ask_spread : npfloat := Fin 0.01.
Definition order_refresh_time : R := 30.
Definition order_amount : npfloat := Fin 0.01.
Definition trading_pair : string := "BTC-USDT".
Definition exchange : string := "binance_paper_trade".
Definition price_source : PriceType := MidPrice.
Definition maxlen : nat := 10.

(** The class-level defaults: an empty window and [create_timestamp = 0]. *)
Definition initial : strategy := mkStrategy [] 0.

(** [deque(maxlen=10).append]: a full deque drops its oldest element. *)
Definition deque_append (d : list Decimal) (x : Decimal) : list Decimal :=
  if (maxlen <=? length d)%nat then tl d ++ [x] else d ++ [x].

(** Lines 36-40: the logistic scale of a volatility reading. *)
Definition scale_of_volatility (volatility : npfloat) : npfloat :=
  let target_vol := Fin 0.005 in
  let sensitivity := Fin 100 in
  let vol_diff := fsub volatility target_vol in
  let sigmoid :=
    fdiv (Fin 1) (fadd (Fin 1) (fexp (fmul (fneg vol_diff) sensitivity))) in
  fsub (Fin 1.5) sigmoid.

(** Lines 59-65: the buy and sell sizes before the floor. *)
Definition skewed_amounts (base_amount btc_value total_value : Decimal)
  : Decimal * Decimal :=
  let target_ratio := 0.5 in
  let current_ratio := btc_value / total_value in
  let inventory_skew := current_ratio - target_ratio in
  let skew_strength := 1.5 in
  let buy_amount := base_amount * (1.0 - skew_strength * inventory_skew) in
  let sell_amount := base_amount * (1.0 + skew_strength * inventory_skew) in
  (buy_amount, sell_amount).

(** Lines 67-69: both sizes floored at [min_order]. *)
Definition floor_amounts (amounts : Decimal * Decimal) : Decimal * Decimal :=
  let min_order := 0.0001 in
  let buy_amount := Rmax (fst amounts) min_order in
  let sell_amount := Rmax (snd amounts) min_order in
  (buy_amount, sell_amount).

Definition create_proposal (ref_price bid_spread ask_spread
                            buy_amount sell_amount : Decimal)
  : list OrderCandidate :=
  let buy_price := ref_price * (1 - bid_spread / 100) in
  let sell_price := ref_price * (1 + ask_spread / 100) in
  let buy_order := mkOrderCandidate trading_pair true LIMIT BUY
                                    buy_amount buy_price in
  let sell_order := mkOrderCandidate trading_pair true LIMIT SELL
                                     sell_amount sell_price in
  [buy_order; sell_order].

Definition adjust_proposal_to_budget (h : host) (proposal : list OrderCandidate)
  : list OrderCandidate :=
  adjust_candidates h proposal true.

Definition place_order (connector_name : string) (order : OrderCandidate)
  : list call :=
  match order_side order with
  | SELL => [Sell connector_name (trading_pair_of order) (amount order)
                  (order_type order) (price order)]
  | BUY => [Buy connector_name (trading_pair_of order) (amount order)
                (order_type order) (price order)]
  | RANGE => []
  end.

Definition place_orders (proposal : list OrderCandidate) : list call :=
  flat_map (place_order exchange) proposal.

Definition cancel_all_orders (h : host) : list call :=
  map (fun order => Cancel exchange (lo_trading_pair order)
                           (client_order_id order))
      (get_active_orders h exchange).

(** [did_fill_order] formats one message and hands it to the clock logger
    and to the notifier; it touches no field. *)
Definition did_fill_order (s : strategy) (event : OrderFilledEvent)
  : strategy * list call :=
  (s, [LogWithClock event exchange; NotifyHbApp event exchange]).

Definition on_tick (h : host) (s : strategy) : result (strategy * list call) :=
  let ref_price := get_price_by_type h trading_pair price_source in
  let s := mkStrategy (deque_append (ref_prices s) ref_price)
                      (create_timestamp s) in
  if (length (ref_prices s) <? maxlen)%nat then
    Ok (s, [LoggerInfo (length (ref_prices s)) maxlen])
  else
    (* Volatility-based scaling *)
    let volatility := calculate_volatility (ref_prices s) in
    let scale := scale_of_volatility volatility in
    base_amount <- Decimal_of_float (fmul order_amount scale) ;;
    dynamic_bid_spread <-
      Decimal_of_float (fmul bid_spread (fsub (Fin 2) scale)) ;;
    dynamic_ask_spread <-
      Decimal_of_float (fmul ask_spread (fsub (Fin 2) scale)) ;;
    (* Inventory skew *)
    let mid_price := ref_price in
    match split trading_pair "-" with
    | [base; quote] =>
        let btc_balance := get_balance h base in
        let usdt_balance := get_balance h quote in
        let btc_value := btc_balance * mid_price in
        let total_value := btc_value + usdt_balance in
        if Reqb total_value 0 then
          Ok (s, [LoggerWarning "Total portfolio value is 0. Skipping tick."])
        else
          let '(buy_amount, sell_amount) :=
            floor_amounts (skewed_amounts base_amount btc_value total_value) in
          (* Order placement *)
          if Rleb (create_timestamp s) (current_timestamp h) then
            let cancels := cancel_all_orders h in
            let proposal :=
              create_proposal mid_price dynamic_bid_spread dynamic_ask_spread
                              buy_amount sell_amount in
            let adjusted_proposal := adjust_proposal_to_budget h proposal in
            let placed := place_orders adjusted_proposal in
            Ok (mkStrategy (ref_prices s)
                           (current_timestamp h + order_refresh_time),
                cancels ++ placed)
          else Ok (s, [])
    | _ => Raised ValueError
    end.

(** ** The specification's words, for comparison *)

Definition Rsum (l : list R) : R := fold_right Rplus 0 l.


(** The population standard deviation of a sample. *)
Definition spec_population_std (xs : list R) : R :=
  let n := INR (length xs) in
  let mean := Rsum xs / n in
  sqrt (Rsum (map (fun x => (x - mean) * (x - mean)) xs) / n).

(** 1.5 - 1/(1 + e^(-(volatility - target_vol) * sensitivity)). *)
Definition spec_scale (volatility : R) : R :=
  1.5 - 1 / (1 + exp (- (volatility - 0.005) * 100)).

(** ** Names for the quantities of one tick *)

Definition warning_zero_value : call :=
  LoggerWarning "Total portfolio value is 0. Skipping tick.".

(** The window after the tick's price is appended, and the portfolio value
    the tick computes on lines 52-53. *)
Definition window_after (h : host) (s : strategy) : list Decimal :=
  deque_append (ref_prices s) (get_price_by_type h trading_pair price_source).

Definition total_value_of (h : host) : Decimal :=
  get_balance h "BTC" * get_price_by_type h trading_pair price_source
  + get_balance h "USDT".

(** The proposal a refreshing tick builds from a volatility reading [v]. *)
Definition proposal_of (h : host) (v : R) : list OrderCandidate :=
  let ref_price := get_price_by_type h trading_pair price_source in
  let scale := spec_scale v in
  let amounts :=
    floor_amounts
      (skewed_amounts (0.01 * scale) (get_balance h "BTC" * ref_price)
                      (total_value_of h)) in
  create_proposal ref_price (0.01 * (2 - scale)) (0.01 * (2 - scale))
                  (fst amounts) (snd amounts).

(** ** A concrete tick

    A connector quoting 100 with 1 BTC and 100 USDT, a budget checker that
    keeps every candidate, no resting order, the clock at 1000; and a
    strategy that has seen nine prices of 100. *)

Definition example_host : host :=
  mkHost (fun _ _ => 100)
         (fun asset => if String.eqb asset "BTC" then 1 else 100)
         (fun proposal _ => proposal)
         (fun _ => [])
         1000.

Definition example_warm : strategy := mkStrategy (repeat 100 9) 0.

(** The same connector with empty balances. *)
Definition example_broke : host :=
  mkHost (fun _ _ => 100) (fun _ => 0) (fun proposal _ => proposal)
         (fun _ => []) 1000.

(** A strategy with a full window whose timer runs until 1030. *)
Definition example_idle : strategy := mkStrategy (repeat 100 10) 1030.

(** ** A sequence of ticks

    The framework's clock calls [on_tick] once per tick; [run_ticks] feeds
    the strategy one host answer per tick and gathers the calls made. *)

Fixpoint run_ticks (hs : list host) (s : strategy)
  : result (strategy * list call) :=
  match hs with
  | [] => Ok (s, [])
  | h :: hs' =>
      r1 <- on_tick h s ;;
      r2 <- run_ticks hs' (fst r1) ;;
      Ok (fst r2, snd r1 ++ snd r2)
  end.

(** The reference price a tick reads. *)
Definition tick_price (h : host) : Decimal :=
  get_price_by_type h trading_pair price_source.

(** The last [n] elements of a list. *)
Definition keep_last {A : Type} (n : nat) (l : list A) : list A :=
  skipn (length l - n) l.

(** [sep.join(parts)] for a one-character separator. *)
Definition join (sep : ascii) (parts : list string) : string :=
  String.concat (String sep EmptyString) parts.

(** How often a character occurs in a string. *)
Fixpoint count_char (c : ascii) (s : string) : nat :=
  match s with
  | EmptyString => 0
  | String c' rest => (if Ascii.eqb c' c then 1 else 0) + count_char c rest
  end.

(** The candidates [place_order] acts on: side BUY or SELL. *)
Definition is_buy_or_sell (order : OrderCandidate) : bool :=
  match order_side order with
  | BUY | SELL => true
  | RANGE => false
  end.

(** The size and price a submit call carries. *)
Definition submitted_size_price (c : call) : Decimal * Decimal :=
  match c with
  | Buy _ _ a _ p | Sell _ _ a _ p => (a, p)
  | _ => (0, 0)
  end.

(** A budget checker that rejects every candidate. *)
Definition example_rejecting : host :=
  mkHost (fun _ _ => 100)
         (fun asset => if String.eqb asset "BTC" then 1 else 100)
         (fun _ _ => [])
         (fun _ => [mkLimitOrder "BTC-USDT" "buy-1"; mkLimitOrder "BTC-USDT" "sell-1"])
         1000.

(** ** The arithmetic lines with rounding

    The same lines as [scale_of_volatility], [skewed_amounts] and
    [create_proposal], with the result of every arithmetic operation
    passed through a rounding function [rnd]: binary64 rounding for the
    float lines, the 28-digit rounding of the Decimal context for the
    Decimal lines.  With [rnd] the identity they are the exact
    definitions above.  [np_exp] stands for numpy's exponential. *)

Definition scale_rounded (rnd np_exp : R -> R) (volatility : R) : R :=
  let target_vol := rnd 0.005 in
  let sensitivity := 100 in
  let vol_diff := rnd (volatility - target_vol) in
  let sigmoid :=
    rnd (1 / rnd (1 + np_exp (rnd (- vol_diff * sensitivity)))) in
  rnd (1.5 - sigmoid).

Definition skewed_amounts_rounded (rnd : R -> R)
    (base_amount btc_value total_value : Decimal) : Decimal * Decimal :=
  let target_ratio := 0.5 in
  let current_ratio := rnd (btc_value / total_value) in
  let inventory_skew := rnd (current_ratio - target_ratio) in
  let skew_strength := 1.5 in
  let buy_amount :=
    rnd (base_amount * rnd (1.0 - rnd (skew_strength * inventory_skew))) in
  let sell_amount :=
    rnd (base_amount * rnd (1.0 + rnd (skew_strength * inventory_skew))) in
  (buy_amount, sell_amount).

Definition create_proposal_rounded (rnd : R -> R)
    (ref_price bid_spread ask_spread buy_amount sell_amount : Decimal)
  : list OrderCandidate :=
  let buy_price := rnd (ref_price * rnd (1 - rnd (bid_spread / 100))) in
  let sell_price := rnd (ref_price * rnd (1 + rnd (ask_spread / 100))) in
  let buy_order := mkOrderCandidate trading_pair true LIMIT BUY
                                    buy_amount buy_price in
  let sell_order := mkOrderCandidate trading_pair true LIMIT SELL
                                     sell_amount sell_price in
  [buy_order; sell_order].

(** What is used of binary64 rounding to nearest: it is monotone and
    leaves 0, 0.5, 1, 1.5 and 2 as they are. *)
Definition binary64_rounding (rnd : R -> R) : Prop :=
  (forall x y, x <= y -> rnd x <= rnd y) /\
  rnd 0 = 0 /\ rnd 0.5 = 0.5 /\ rnd 1 = 1 /\ rnd 1.5 = 1.5 /\ rnd 2 = 2.

(** What is used of the exponential: never negative, monotone, 1 at 0. *)
Definition exp_like (np_exp : R -> R) : Prop :=
  (forall x, 0 <= np_exp x) /\
  (forall x y, x <= y -> np_exp x <= np_exp y) /\
  np_exp 0 = 1.

(** The relative error of rounding to 28 significant digits, with room
    to spare (half-even rounding stays below half of it). *)
Definition decimal_eps : R := 1 / 1000000000000000000000000000.

(** What is used of the Decimal context (precision 28, exponent limits
    left out): a result is within relative error [decimal_eps] of the
    exact one, and a value with at most 28 digits is kept as it is. *)
Definition decimal_rounding (rnd : R -> R) : Prop :=
  (forall x, Rabs (rnd x - x) <= decimal_eps * Rabs x) /\
  (forall (n : Z) (k : nat),
     (Z.abs n < 10 ^ 28)%Z -> rnd (IZR n / 10 ^ k) = IZR n / 10 ^ k).

(** ** Binary64

    Lines 36-40 and the float products of lines 41-43 on IEEE binary64
    numbers (Rocq's primitive floats).  numpy's [exp] is a parameter. *)

Set Warnings "-inexact-float".

Module Binary64.
Local Open Scope float_scope.

Definition scale (np_exp : PrimFloat.float -> PrimFloat.float)
                 (volatility : PrimFloat.float) : PrimFloat.float :=
  let target_vol := 0.005 in
  let sensitivity := 100 in
  let vol_diff := volatility - target_vol in
  let sigmoid := 1 / (1 + np_exp (- vol_diff * sensitivity)) in
  1.5 - sigmoid.

Definition order_amount : PrimFloat.float := 0.01.
Definition bid_spread : PrimFloat.float := 0.01.

Definition dynamic_spread_float (scale : PrimFloat.float)
  : PrimFloat.float :=
  bid_spread * (2 - scale).

(** An exponential of which only the underflow is known: it answers 0
    below -810, where the real exponential is less than half the least
    positive binary64 number ([exp_underflow_real]), and NaN elsewhere. *)
Definition exp_underflowing (x : PrimFloat.float) : PrimFloat.float :=
  if x <? -810 then 0 else nan.

(** The value of [np.exp(0.49)], the argument met at volatility 1e-4. *)
Definition exp_0_49 : PrimFloat.float := 1.632316219955379.
Definition exp_at_epsilon (x : PrimFloat.float) : PrimFloat.float :=
  if x =? 0.49 then exp_0_49 else nan.
End Binary64.

(** ** Decimals of 28 significant digits

    Finite [decimal.Decimal] values as coefficient and exponent, with the
    operations of the default context (precision 28, ROUND_HALF_EVEN) as
    the decimal module computes them; exponent limits and the special
    values are left out.  Results may carry trailing zeros that Python
    strips; comparisons are by value. *)

Module Decimal28.
Local Open Scope Z_scope.

(** The value is [coefficient * 10 ^ exponent]. *)
Record dec : Type := Dec { coefficient : Z; exponent : Z }.

Definition prec : Z := 28.

Fixpoint digits_aux (fuel : nat) (n : Z) : Z :=
  match fuel with
  | O => 0
  | S fuel' => if n <? 10 then 1 else 1 + digits_aux fuel' (n / 10)
  end.

(** The number of decimal digits of [abs n]. *)
Definition digits (n : Z) : Z :=
  digits_aux (S (Z.to_nat (Z.log2 (Z.abs n)))) (Z.abs n).

(** Rounding to [prec] digits, ties to the even coefficient. *)
Definition fix_ (d : dec) : dec :=
  let c := coefficient d in
  let k := digits c - prec in
  if k <=? 0 then d
  else
    let p := 10 ^ k in
    let q := Z.abs c / p in
    let r := Z.abs c mod p in
    let q' := if p <? 2 * r then q + 1
              else if 2 * r =? p then (if Z.even q then q else q + 1)
              else q in
    Dec (Z.sgn c * q') (exponent d + k).

Definition neg (a : dec) : dec := Dec (- coefficient a) (exponent a).

Definition mul (a b : dec) : dec :=
  fix_ (Dec (coefficient a * coefficient b) (exponent a + exponent b)).

(** The exact sum, before rounding. *)
Definition add_exact (a b : dec) : dec :=
  let e := Z.min (exponent a) (exponent b) in
  Dec (coefficient a * 10 ^ (exponent a - e)
       + coefficient b * 10 ^ (exponent b - e)) e.

Definition add (a b : dec) : dec := fix_ (add_exact a b).

Definition sub (a b : dec) : dec := add a (neg b).

(** Division: an integer quotient of at least [prec + 1] digits; when
    the division is inexact and the quotient ends in 0 or 5, one is added
    so that the rounding sees the remainder; then rounded.  A zero
    divisor raises. *)
Definition div (a b : dec) : option dec :=
  if coefficient b =? 0 then None
  else if coefficient a =? 0 then Some (Dec 0 (exponent a - exponent b))
  else
    let shift := digits (coefficient b) - digits (coefficient a) + prec + 1 in
    let e := exponent a - exponent b - shift in
    let n := Z.abs (coefficient a) in
    let m := Z.abs (coefficient b) in
    let '(q, r) := if 0 <=? shift then Z.div_eucl (n * 10 ^ shift) m
                   else Z.div_eucl n (m * 10 ^ (- shift)) in
    let q := if r =? 0 then q else if q mod 5 =? 0 then q + 1 else q in
    Some (fix_ (Dec (Z.sgn (coefficient a) * Z.sgn (coefficient b) * q) e)).

(** Comparison by value. *)
Definition compare (a b : dec) : comparison :=
  let e := Z.min (exponent a) (exponent b) in
  Z.compare (coefficient a * 10 ^ (exponent a - e))
            (coefficient b * 10 ^ (exponent b - e)).

Definition eqb (a b : dec) : bool :=
  match compare a b with Eq => true | _ => false end.

Definition ltb (a b : dec) : bool :=
  match compare a b with Lt => true | _ => false end.

(** [Decimal(x)] of a float: the exact value of the binary64 number. *)
Definition of_float (x : PrimFloat.float) : option dec :=
  match Prim2SF x with
  | S754_zero _ => Some (Dec 0 0)
  | S754_finite s m e =>
      let c := if s then Z.neg m else Z.pos m in
      Some (if 0 <=? e then Dec (c * 2 ^ e) 0 else Dec (c * 5 ^ (- e)) e)
  | _ => None
  end.

(** Lines 59-65. *)
Definition skewed_amounts (base_amount btc_value total_value : dec)
  : option (dec * dec) :=
  let target_ratio := Dec 5 (-1) in
  match div btc_value total_value with
  | None => None
  | Some current_ratio =>
      let inventory_skew := sub current_ratio target_ratio in
      let skew_strength := Dec 15 (-1) in
      let buy_amount :=
        mul base_amount (sub (Dec 10 (-1)) (mul skew_strength inventory_skew)) in
      let sell_amount :=
        mul base_amount (add (Dec 10 (-1)) (mul skew_strength inventory_skew)) in
      Some (buy_amount, sell_amount)
  end.

(** Lines 91-92: the two prices of [create_proposal]. *)
Definition proposal_prices (ref_price bid_spread ask_spread : dec)
  : option (dec * dec) :=
  match div bid_spread (Dec 100 0), div ask_spread (Dec 100 0) with
  | Some bid, Some ask =>
      let buy_price := mul ref_price (sub (Dec 1 0) bid) in
      let sell_price := mul ref_price (add (Dec 1 0) ask) in
      Some (buy_price, sell_price)
  | _, _ => None
  end.
End Decimal28.

(** * Properties *)

(** Decimal literals such as [0.005] are quotients of integers; [field]
    needs them spelled out. *)
Ltac decimals :=
  unfold Q2R in *; cbn [QArith_base.Qnum QArith_base.Qden] in *.

(** ** Comparisons on reals *)


Lemma Rltb_false (a b : R) : b <= a -> Rltb a b = false.
Proof. intros H. unfold Rltb. destruct (Rlt_dec a b); [lra | reflexivity]. Qed.

Lemma Rleb_true (a b : R) : a <= b -> Rleb a b = true.
Proof. intros H. unfold Rleb. destruct (Rle_dec a b); [reflexivity | contradiction]. Qed.

Lemma Rleb_false (a b : R) : b < a -> Rleb a b = false.
Proof. intros H. unfold Rleb. destruct (Rle_dec a b); [lra | reflexivity]. Qed.

Lemma Reqb_true (a b : R) : a = b -> Reqb a b = true.
Proof. intros H. unfold Reqb. destruct (Req_dec_T a b); [reflexivity | contradiction]. Qed.

Lemma Reqb_false (a b : R) : a <> b -> Reqb a b = false.
Proof. intros H. unfold Reqb. destruct (Req_dec_T a b); [contradiction | reflexivity]. Qed.

Lemma Reqb_eq (a b : R) : Reqb a b = true -> a = b.
Proof. unfold Reqb. destruct (Req_dec_T a b); [trivial | discriminate]. Qed.

Lemma Reqb_neq (a b : R) : Reqb a b = false -> a <> b.
Proof. unfold Reqb. destruct (Req_dec_T a b); [discriminate | trivial]. Qed.

Lemma Rleb_le (a b : R) : Rleb a b = true -> a <= b.
Proof. unfold Rleb. destruct (Rle_dec a b); [trivial | discriminate]. Qed.

Lemma Rleb_gt (a b : R) : Rleb a b = false -> b < a.
Proof. unfold Rleb. destruct (Rle_dec a b); [discriminate | lra]. Qed.

(** ** Arrays of finite floats compute as the reals do *)

Lemma fold_fadd_Fin (xs : list R) (a : R) :
  fold_left fadd (map Fin xs) (Fin a) = Fin (a + Rsum xs).
Proof.
  revert a. induction xs as [|x xs IH]; intros a; simpl.
  - f_equal. lra.
  - rewrite IH. f_equal. lra.
Qed.

Lemma np_sum_Fin (xs : list R) : np_sum (map Fin xs) = Fin (Rsum xs).
Proof. unfold np_sum. rewrite fold_fadd_Fin. f_equal. lra. Qed.

Lemma Rsum_squares_nonneg (xs : list R) (m : R) :
  0 <= Rsum (map (fun x => (x - m) * (x - m)) xs).
Proof.
  induction xs as [|x xs IH]; simpl; [lra|].
  pose proof (Rle_0_sqr (x - m)) as Hsq. unfold Rsqr in Hsq. lra.
Qed.

Lemma INR_length_pos {A : Type} (xs : list A) : xs <> [] -> 0 < INR (length xs).
Proof.
  destruct xs as [|x xs]; [congruence|]. intros _.
  apply lt_0_INR. simpl. lia.
Qed.

Lemma np_std_Fin (xs : list R) :
  xs <> [] -> np_std (map Fin xs) = Fin (spec_population_std xs).
Proof.
  intros Hne. pose proof (INR_length_pos xs Hne) as Hn.
  unfold np_std, spec_population_std.
  rewrite length_map, np_sum_Fin. simpl fdiv at 2.
  rewrite Reqb_false by lra.
  rewrite map_map.
  set (m := Rsum xs / INR (length xs)).
  replace (map (fun v => fmul (fsub v (Fin m)) (fsub v (Fin m))) (map Fin xs))
    with (map Fin (map (fun x => (x - m) * (x - m)) xs)).
  2:{ rewrite !map_map. apply map_ext. intros x. simpl. reflexivity. }
  rewrite np_sum_Fin. simpl. rewrite Reqb_false by lra.
  simpl. rewrite Rltb_false; [reflexivity|].
  apply Rmult_le_pos; [apply Rsum_squares_nonneg|].
  left. apply Rinv_0_lt_compat. exact Hn.
Qed.





(** ** Arrays holding NaN or an infinity *)

Lemma fadd_NaN_r (a : npfloat) : fadd a NaN = NaN.
Proof. destruct a; reflexivity. Qed.

Lemma fold_fadd_NaN (l : list npfloat) : fold_left fadd l NaN = NaN.
Proof. induction l as [|x l IH]; simpl; [reflexivity | exact IH]. Qed.

Lemma fold_fadd_In_NaN (l : list npfloat) (acc : npfloat) :
  In NaN l -> fold_left fadd l acc = NaN.
Proof.
  revert acc. induction l as [|x l IH]; intros acc Hin; [contradiction|].
  simpl. destruct Hin as [-> | Hin].
  - rewrite fadd_NaN_r. apply fold_fadd_NaN.
  - apply IH. exact Hin.
Qed.

Lemma fold_fadd_PosInf (l : list npfloat) (acc : npfloat) :
  fold_left fadd l acc = PosInf -> acc = PosInf \/ In PosInf l.
Proof.
  revert acc. induction l as [|x l IH]; intros acc H; simpl in *; [auto|].
  apply IH in H as [H | H]; [|auto].
  destruct acc, x; simpl in H; try discriminate; auto.
Qed.

Lemma fold_fadd_NegInf (l : list npfloat) (acc : npfloat) :
  fold_left fadd l acc = NegInf -> acc = NegInf \/ In NegInf l.
Proof.
  revert acc. induction l as [|x l IH]; intros acc H; simpl in *; [auto|].
  apply IH in H as [H | H]; [|auto].
  destruct acc, x; simpl in H; try discriminate; auto.
Qed.

Lemma fadd_finite (a b : npfloat) :
  isfinite (fadd a b) = true -> isfinite a = true /\ isfinite b = true.
Proof. destruct a, b; simpl; intros H; try discriminate; auto. Qed.

Lemma fold_fadd_finite (l : list npfloat) (acc : npfloat) (r : R) :
  fold_left fadd l acc = Fin r ->
  isfinite acc = true /\ exists xs, l = map Fin xs.
Proof.
  revert acc. induction l as [|x l IH]; intros acc H; simpl in *.
  - subst acc. split; [reflexivity|]. exists []. reflexivity.
  - destruct (IH _ H) as (Hfin & xs & ->).
    apply fadd_finite in Hfin as [Ha Hx]. split; [exact Ha|].
    destruct x as [ | | |y]; try discriminate.
    exists (y :: xs). reflexivity.
Qed.

Lemma fsub_NaN_r (a : npfloat) : fsub a NaN = NaN.
Proof. destruct a; reflexivity. Qed.

(** A sum of squared deviations with a NaN deviation is NaN, and so is
    the standard deviation. *)
Lemma np_std_NaN_deviation (a : list npfloat) :
  (exists v, In v a /\ fsub v (fdiv (np_sum a) (Fin (INR (length a)))) = NaN) ->
  np_std a = NaN.
Proof.
  intros (v & Hin & Hnan). unfold np_std.
  set (m := fdiv (np_sum a) (Fin (INR (length a)))) in *.
  assert (Hsq : In NaN (map (fun d => fmul d d) (map (fun w => fsub w m) a))).
  { rewrite map_map. apply in_map_iff. exists v. split; [|exact Hin].
    rewrite Hnan. reflexivity. }
  unfold np_sum. rewrite (fold_fadd_In_NaN _ _ Hsq). reflexivity.
Qed.

(** [np.std] yields NaN or the standard deviation of finite entries: it
    never yields an infinity. *)
Lemma np_std_cases (a : list npfloat) :
  np_std a = NaN \/
  exists xs, xs <> [] /\ a = map Fin xs /\ np_std a = Fin (spec_population_std xs).
Proof.
  destruct a as [|v0 a'] eqn:Ea.
  - left. unfold np_std, np_sum. simpl.
    rewrite !Reqb_true by reflexivity. reflexivity.
  - rewrite <- Ea. assert (Hne : a <> []) by (rewrite Ea; discriminate).
    assert (Hv0 : In v0 a) by (rewrite Ea; left; reflexivity).
    pose proof (INR_length_pos a Hne) as Hn.
    destruct (np_sum a) as [ | | |s] eqn:Hsum.
    + left. apply np_std_NaN_deviation. exists v0. split; [exact Hv0|].
      rewrite Hsum. simpl. apply fsub_NaN_r.
    + left. apply np_std_NaN_deviation.
      pose proof Hsum as Hin.
      apply fold_fadd_NegInf in Hin as [Hacc | Hin]; [discriminate|].
      exists NegInf. split; [exact Hin|].
      rewrite Hsum. simpl. rewrite Rltb_false by lra. reflexivity.
    + left. apply np_std_NaN_deviation.
      pose proof Hsum as Hin.
      apply fold_fadd_PosInf in Hin as [Hacc | Hin]; [discriminate|].
      exists PosInf. split; [exact Hin|].
      rewrite Hsum. simpl. rewrite Rltb_false by lra. reflexivity.
    + right. apply fold_fadd_finite in Hsum as (_ & xs & Hxs).
      exists xs. assert (Hxne : xs <> []).
      { intros ->. apply Hne. exact Hxs. }
      split; [exact Hxne|]. split; [exact Hxs|].
      rewrite Hxs. apply np_std_Fin. exact Hxne.
Qed.

Lemma spec_population_std_nonneg (xs : list R) : 0 <= spec_population_std xs.
Proof. unfold spec_population_std. apply sqrt_pos. Qed.

(** Whatever the array holds (non-positive, NaN or infinite entries
    included), the reading is a finite, strictly positive number. *)
Lemma volatility_of_prices_positive (prices : list npfloat) :
  exists v, volatility_of_prices prices = Fin v /\ 0 < v.
Proof.
  unfold volatility_of_prices.
  destruct (existsb fle0 prices); [exists 0.0001; split; [reflexivity | lra]|].
  cbv zeta.
  destruct (np_std_cases (np_diff (map flog prices)))
    as [-> | (xs & _ & _ & ->)].
  - exists 0.0001. split; [reflexivity | lra].
  - simpl. destruct (Reqb (spec_population_std xs) 0) eqn:Hz.
    + exists 0.0001. split; [reflexivity | lra].
    + exists (spec_population_std xs). split; [reflexivity|].
      apply Reqb_neq in Hz. pose proof (spec_population_std_nonneg xs). lra.
Qed.








(** ** The logistic scale *)

Lemma scale_of_volatility_Fin (v : R) :
  scale_of_volatility (Fin v) = Fin (spec_scale v).
Proof.
  unfold scale_of_volatility, spec_scale. simpl.
  rewrite Reqb_false.
  - simpl. reflexivity.
  - match goal with
    | |- 1 + exp ?x <> 0 => pose proof (exp_pos x); lra
    end.
Qed.

Lemma spec_scale_bounds (v : R) : 0.5 < spec_scale v < 1.5.
Proof.
  unfold spec_scale.
  set (e := exp (- (v - 0.005) * 100)).
  assert (He : 0 < e) by apply exp_pos.
  assert (H0 : 0 < 1 / (1 + e)) by (apply Rdiv_lt_0_compat; lra).
  assert (H1 : 1 / (1 + e) < 1).
  { apply (Rmult_lt_reg_r (1 + e)); [lra|]. field_simplify; lra. }
  lra.
Qed.

Lemma spec_scale_at_target : spec_scale 0.005 = 1.
Proof.
  unfold spec_scale.
  replace (- (0.005 - 0.005) * 100) with 0 by lra.
  rewrite exp_0. lra.
Qed.

Lemma spec_scale_decreasing (v1 v2 : R) :
  v1 < v2 -> spec_scale v2 < spec_scale v1.
Proof.
  intros Hlt. unfold spec_scale.
  set (e1 := exp (- (v1 - 0.005) * 100)).
  set (e2 := exp (- (v2 - 0.005) * 100)).
  assert (He2 : 0 < e2) by apply exp_pos.
  assert (He : e2 < e1) by (apply exp_increasing; lra).
  assert (Hinv : / (1 + e1) < / (1 + e2)).
  { apply Rinv_lt_contravar; [|lra]. apply Rmult_lt_0_compat; lra. }
  unfold Rdiv. lra.
Qed.

(** ** Rounding laws *)

Lemma Rabs_le_both (a b : R) : Rabs a <= b -> - b <= a <= b.
Proof. unfold Rabs. destruct (Rcase_abs a); lra. Qed.

Lemma decimal_eps_small : 0 < decimal_eps < 1 / 1000.
Proof. unfold decimal_eps. lra. Qed.

Lemma rounded_nonneg (rnd : R -> R) (x : R) :
  (forall x, Rabs (rnd x - x) <= decimal_eps * Rabs x) ->
  0 <= x ->
  x * (1 - decimal_eps) <= rnd x <= x * (1 + decimal_eps).
Proof.
  intros Hrel Hx. specialize (Hrel x).
  rewrite (Rabs_right x) in Hrel by lra.
  apply Rabs_le_both in Hrel. lra.
Qed.

Lemma rounded_nonpos (rnd : R -> R) (x : R) :
  (forall x, Rabs (rnd x - x) <= decimal_eps * Rabs x) ->
  x <= 0 ->
  x * (1 + decimal_eps) <= rnd x <= x * (1 - decimal_eps).
Proof.
  intros Hrel Hx. specialize (Hrel x).
  rewrite (Rabs_left1 x) in Hrel by lra.
  apply Rabs_le_both in Hrel. lra.
Qed.

Lemma rounded_zero (rnd : R -> R) :
  (forall x, Rabs (rnd x - x) <= decimal_eps * Rabs x) -> rnd 0 = 0.
Proof.
  intros Hrel. pose proof (rounded_nonneg rnd 0 Hrel) as H. lra.
Qed.

Lemma rounded_exact (rnd : R -> R) (x : R) (n : Z) (k : nat) :
  decimal_rounding rnd ->
  x = IZR n / 10 ^ k -> (Z.abs n < 10 ^ 28)%Z -> rnd x = x.
Proof. intros [_ Hexact] -> Hn. apply Hexact. exact Hn. Qed.

Lemma identity_decimal_rounding : decimal_rounding (fun x => x).
Proof.
  split.
  - intros x. replace (x - x) with 0 by lra. rewrite Rabs_R0.
    apply Rmult_le_pos; [unfold decimal_eps; lra | apply Rabs_pos].
  - reflexivity.
Qed.

Lemma identity_binary64_rounding : binary64_rounding (fun x => x).
Proof. repeat split; auto. Qed.

Lemma exp_is_exp_like : exp_like exp.
Proof.
  split; [|split].
  - intros x. left. apply exp_pos.
  - intros x y [Hlt | ->]; [left; apply exp_increasing; exact Hlt | right; reflexivity].
  - apply exp_0.
Qed.

(** ** The scale under binary64 rounding *)

Lemma scale_rounded_exact (v : R) :
  scale_rounded (fun x => x) exp v = spec_scale v.
Proof. reflexivity. Qed.

Lemma scale_rounded_bounds (rnd np_exp : R -> R) (v : R) :
  binary64_rounding rnd -> exp_like np_exp ->
  0.5 <= scale_rounded rnd np_exp v <= 1.5.
Proof.
  intros (Hmono & H0 & Hhalf & H1 & H32 & H2) (Hpos & _ & _).
  unfold scale_rounded. cbv zeta.
  set (e := np_exp _). specialize (Hpos (rnd (- rnd (v - rnd 0.005) * 100))).
  fold e in Hpos.
  assert (Hd : 1 <= rnd (1 + e)).
  { rewrite <- H1 at 1. apply Hmono. lra. }
  set (d := rnd (1 + e)) in *.
  assert (Hq : 0 <= 1 / d <= 1).
  { split.
    - unfold Rdiv. rewrite Rmult_1_l. left. apply Rinv_0_lt_compat. lra.
    - apply (Rmult_le_reg_r d); [lra|]. unfold Rdiv.
      rewrite Rmult_assoc, Rinv_l by lra. lra. }
  assert (Hs : 0 <= rnd (1 / d) <= 1).
  { split; [rewrite <- H0 at 1 | rewrite <- H1 at 2]; apply Hmono; lra. }
  set (sg := rnd (1 / d)) in *.
  split; [rewrite <- Hhalf at 1 | rewrite <- H32 at 2]; apply Hmono; lra.
Qed.

Lemma scale_rounded_at_target (rnd np_exp : R -> R) :
  binary64_rounding rnd -> exp_like np_exp ->
  scale_rounded rnd np_exp (rnd 0.005) = 1.0.
Proof.
  intros (Hmono & H0 & Hhalf & H1 & H32 & H2) (_ & _ & He0).
  unfold scale_rounded. cbv zeta.
  replace (rnd 0.005 - rnd 0.005) with 0 by lra. rewrite H0.
  replace (- 0 * 100) with 0 by lra. rewrite H0, He0.
  replace (1 + 1) with 2 by lra. rewrite H2.
  replace (1 / 2) with 0.5 by lra. rewrite Hhalf.
  replace (1.5 - 0.5) with 1 by lra. rewrite H1. lra.
Qed.

Lemma scale_rounded_monotone (rnd np_exp : R -> R) (v1 v2 : R) :
  binary64_rounding rnd -> exp_like np_exp ->
  v1 <= v2 ->
  scale_rounded rnd np_exp v2 <= scale_rounded rnd np_exp v1.
Proof.
  intros (Hmono & H0 & Hhalf & H1 & H32 & H2) (Hpos & Hemono & _) Hle.
  unfold scale_rounded. cbv zeta.
  assert (Hdiff : rnd (v1 - rnd 0.005) <= rnd (v2 - rnd 0.005))
    by (apply Hmono; lra).
  set (d1 := rnd (v1 - rnd 0.005)) in *. set (d2 := rnd (v2 - rnd 0.005)) in *.
  assert (Harg : rnd (- d2 * 100) <= rnd (- d1 * 100)) by (apply Hmono; lra).
  apply Hemono in Harg.
  set (e1 := np_exp (rnd (- d1 * 100))) in *.
  set (e2 := np_exp (rnd (- d2 * 100))) in *.
  assert (He2 : 0 <= e2) by apply Hpos.
  assert (Hden : rnd (1 + e2) <= rnd (1 + e1)) by (apply Hmono; lra).
  assert (Hden2 : 1 <= rnd (1 + e2)).
  { rewrite <- H1 at 1. apply Hmono. lra. }
  set (n1 := rnd (1 + e1)) in *. set (n2 := rnd (1 + e2)) in *.
  assert (Hinv : 1 / n1 <= 1 / n2).
  { unfold Rdiv. rewrite !Rmult_1_l. apply Rinv_le_contravar; lra. }
  apply Hmono in Hinv.
  apply Hmono. lra.
Qed.

(** ** Binary64 facts *)

Lemma exp_INR_mult (n : nat) (x : R) : exp (INR n * x) = exp x ^ n.
Proof.
  induction n as [|n IH].
  - simpl. rewrite Rmult_0_l. apply exp_0.
  - rewrite S_INR, Rmult_plus_distr_r, Rmult_1_l, exp_plus, IH. simpl. ring.
Qed.

(** e^-810 is below half the least positive binary64 number, 2^-1074:
    rounding it to nearest gives 0. *)
Lemma exp_underflow_real : exp (- 810) < / 2 ^ 1075.
Proof.
  assert (H16 : 17 / 16 < exp (1 / 16)).
  { pose proof (exp_ineq1 (1 / 16)). lra. }
  assert (H3 : 16 < exp 3).
  { replace 3 with (INR 48 * (1 / 16)) by (simpl; lra).
    rewrite exp_INR_mult.
    apply Rlt_le_trans with ((17 / 16) ^ 48).
    - unfold Rdiv. rewrite Rpow_mult_distr, pow_inv.
      apply (Rmult_lt_reg_r (16 ^ 48)); [apply pow_lt; lra|].
      rewrite Rmult_assoc, Rinv_l by (apply pow_nonzero; lra).
      rewrite Rmult_1_r.
      rewrite !pow_IZR, <- mult_IZR. apply IZR_lt. vm_compute. reflexivity.
    - apply pow_incr. lra. }
  assert (H810 : 2 ^ 1075 < exp 810).
  { replace 810 with (INR 270 * 3) by (simpl; lra).
    rewrite exp_INR_mult.
    apply Rlt_le_trans with (16 ^ 270).
    - rewrite !pow_IZR. apply IZR_lt. vm_compute. reflexivity.
    - apply pow_incr. lra. }
  change (exp (- 810)) with (exp (Ropp 810)).
  rewrite exp_Ropp. apply Rinv_lt_contravar; [|exact H810].
  apply Rmult_lt_0_compat; [apply pow_lt; lra | apply exp_pos].
Qed.

Lemma exp_underflowing_contract (x : PrimFloat.float) :
  (x <? -810)%float = true -> Binary64.exp_underflowing x = 0%float.
Proof. intros H. unfold Binary64.exp_underflowing. rewrite H. reflexivity. Qed.

Lemma scale_saturated :
  Binary64.scale Binary64.exp_underflowing 9 = 0.5%float /\
  Binary64.scale Binary64.exp_underflowing 10 = 0.5%float.
Proof. split; vm_compute; reflexivity. Qed.

(** C2, as stated, fails on binary64: at volatility 9 the exponential
    underflows to 0 and the scale is exactly 0.5, not above it; at
    volatility 10 it is 0.5 again, not smaller. *)
Lemma scale_claim_fails_in_binary64 :
  ~ (forall (np_exp : PrimFloat.float -> PrimFloat.float)
            (v1 v2 : PrimFloat.float),
       (forall x, (x <? -810)%float = true -> np_exp x = 0%float) ->
       (v1 <? v2)%float = true ->
       (0.5 <? Binary64.scale np_exp v1)%float = true /\
       (Binary64.scale np_exp v2 <? Binary64.scale np_exp v1)%float = true).
Proof.
  intros H.
  destruct (H Binary64.exp_underflowing 9%float 10%float
              exp_underflowing_contract eq_refl) as [Hstrict _].
  vm_compute in Hstrict. discriminate.
Qed.

Lemma scale_at_epsilon_binary64 :
  Binary64.scale Binary64.exp_at_epsilon 0.0001 = 1.12010643234309%float.
Proof. vm_compute. reflexivity. Qed.

(** C2, amended.  Under binary64 rounding (any monotone rounding that
    keeps 0, 0.5, 1, 1.5 and 2) and any exponential that is monotone,
    never negative and 1 at 0, the scale lies in the closed interval from
    0.5 to 1.5, is exactly 1.0 when the volatility equals the target,
    and never increases with the volatility. *)
Theorem scale_rounded_spec (rnd np_exp : R -> R) :
  binary64_rounding rnd -> exp_like np_exp ->
  (forall v, 0.5 <= scale_rounded rnd np_exp v <= 1.5) /\
  scale_rounded rnd np_exp (rnd 0.005) = 1.0 /\
  (forall v1 v2,
     v1 <= v2 -> scale_rounded rnd np_exp v2 <= scale_rounded rnd np_exp v1).
Proof.
  intros Hrnd Hexp. split; [|split].
  - intros v. apply scale_rounded_bounds; assumption.
  - apply scale_rounded_at_target; assumption.
  - intros v1 v2 Hle. apply scale_rounded_monotone; assumption.
Qed.

Lemma scale_rounded_spec_witness :
  0.5 <= scale_rounded (fun x => x) exp 0.0001 <= 1.5 /\
  scale_rounded (fun x => x) exp 0.005 = 1.0 /\
  scale_rounded (fun x => x) exp 0.006 <= scale_rounded (fun x => x) exp 0.005.
Proof.
  destruct (scale_rounded_spec (fun x => x) exp identity_binary64_rounding
              exp_is_exp_like) as (Hbounds & Htarget & Hmono).
  split; [apply Hbounds|]. split; [exact Htarget|].
  apply Hmono. lra.
Defined.

(** ** The tick *)

Lemma split_trading_pair : split trading_pair "-" = ["BTC"; "USDT"]%string.
Proof. reflexivity. Qed.

Lemma deque_append_length (d : list Decimal) (x : Decimal) :
  length (deque_append d x) =
    if (maxlen <=? length d)%nat then length d else S (length d).
Proof.
  unfold deque_append. destruct (maxlen <=? length d)%nat eqn:Hfull.
  - rewrite length_app. simpl. apply Nat.leb_le in Hfull.
    destruct d; simpl in *; [unfold maxlen in Hfull; lia | lia].
  - rewrite length_app. simpl. lia.
Qed.

Lemma deque_append_not_full (d : list Decimal) (x : Decimal) :
  (length (deque_append d x) < maxlen)%nat -> deque_append d x = d ++ [x].
Proof.
  intros Hlt. rewrite deque_append_length in Hlt. unfold deque_append.
  destruct (maxlen <=? length d)%nat eqn:Hfull; [|reflexivity].
  apply Nat.leb_le in Hfull. lia.
Qed.

Lemma deque_append_stays_full (d : list Decimal) (x y : Decimal) :
  (maxlen <= length (deque_append d x))%nat ->
  (maxlen <= length (deque_append (deque_append d x) y))%nat.
Proof.
  intros Hfull. rewrite (deque_append_length (deque_append d x)).
  destruct (maxlen <=? length (deque_append d x))%nat; lia.
Qed.


(** Every path of a tick on a full window, in one equation. *)
Lemma on_tick_full_window (h : host) (s : strategy) :
  (length (window_after h s) <? maxlen)%nat = false ->
  exists v,
    calculate_volatility (window_after h s) = Fin v /\ 0 < v /\
    on_tick h s =
      if Reqb (total_value_of h) 0 then
        Ok (mkStrategy (window_after h s) (create_timestamp s),
            [warning_zero_value])
      else if Rleb (create_timestamp s) (current_timestamp h) then
        Ok (mkStrategy (window_after h s)
                       (current_timestamp h + order_refresh_time),
            cancel_all_orders h
              ++ place_orders (adjust_proposal_to_budget h (proposal_of h v)))
      else Ok (mkStrategy (window_after h s) (create_timestamp s), []).
Proof.
  intros Hfull.
  destruct (volatility_of_prices_positive (map float (window_after h s)))
    as (v & Hv & Hpos).
  exists v. split; [exact Hv|]. split; [exact Hpos|].
  unfold on_tick. fold (window_after h s). cbn [ref_prices create_timestamp].
  rewrite Hfull.
  change (calculate_volatility (window_after h s) = Fin v) in Hv.
  rewrite Hv, scale_of_volatility_Fin.
  cbn [order_amount bid_spread ask_spread fmul fsub fadd fneg
       Decimal_of_float bind].
  rewrite split_trading_pair. fold (total_value_of h).
  destruct (Reqb (total_value_of h) 0); [reflexivity|].
  unfold proposal_of.
  destruct (Rleb (create_timestamp s) (current_timestamp h)); reflexivity.
Qed.

(** The path of a tick on a window that is not full yet. *)
Lemma on_tick_warming (h : host) (s : strategy) :
  (length (window_after h s) < maxlen)%nat ->
  on_tick h s =
    Ok (mkStrategy
          (ref_prices s ++ [get_price_by_type h trading_pair price_source])
          (create_timestamp s),
        [LoggerInfo (S (length (ref_prices s))) 10]).
Proof.
  intros Hlt.
  pose proof (deque_append_not_full _ _ Hlt) as Happ.
  unfold on_tick. fold (window_after h s). cbn [ref_prices create_timestamp].
  apply Nat.ltb_lt in Hlt. rewrite Hlt.
  unfold window_after in *. rewrite Happ, length_app. simpl.
  rewrite Nat.add_1_r. reflexivity.
Qed.

(** A tick always returns: the conversions to Decimal only see finite
    floats, and the trading pair splits in two. *)
Lemma on_tick_returns (h : host) (s : strategy) :
  exists s' calls, on_tick h s = Ok (s', calls).
Proof.
  destruct (Nat.ltb (length (window_after h s)) maxlen) eqn:Hfull.
  - apply Nat.ltb_lt in Hfull. eexists _, _. apply on_tick_warming. exact Hfull.
  - destruct (on_tick_full_window h s Hfull) as (v & _ & _ & ->).
    destruct (Reqb (total_value_of h) 0);
      [|destruct (Rleb (create_timestamp s) (current_timestamp h))];
      eexists _, _; reflexivity.
Qed.

(** ** The allocator and the proposal builder *)

Lemma Rmax_min_order (x : R) : 0.0001 <= Rmax x 0.0001.
Proof. apply Rmax_r. Qed.

Lemma floor_amounts_bounds (amounts : Decimal * Decimal) :
  0.0001 <= fst (floor_amounts amounts) /\
  0.0001 <= snd (floor_amounts amounts).
Proof. unfold floor_amounts. simpl. split; apply Rmax_min_order. Qed.

(** C3. Whenever the allocator runs (full window, total_value <> 0) the
    buy and the sell amount are each >= min_order = 0.0001, whatever the
    skew formulas give; on a refreshing tick these floored amounts are the
    sizes of the two orders handed to the budget adjustment. *)
Theorem amounts_at_least_min_order :
  (forall base_amount btc_value total_value : Decimal,
     total_value <> 0 ->
     let amounts :=
       floor_amounts (skewed_amounts base_amount btc_value total_value) in
     0.0001 <= fst amounts /\ 0.0001 <= snd amounts) /\
  (forall (h : host) (s : strategy),
     (maxlen <= length (window_after h s))%nat ->
     total_value_of h <> 0 ->
     create_timestamp s <= current_timestamp h ->
     exists s' buy_order sell_order,
       on_tick h s =
         Ok (s', cancel_all_orders h
                   ++ place_orders
                        (adjust_proposal_to_budget h [buy_order; sell_order]))
       /\ order_side buy_order = BUY /\ 0.0001 <= amount buy_order
       /\ order_side sell_order = SELL /\ 0.0001 <= amount sell_order).
Proof.
  split.
  - intros base_amount btc_value total_value _ amounts.
    apply floor_amounts_bounds.
  - intros h s Hfull Hval Hdue.
    apply Nat.ltb_ge in Hfull.
    destruct (on_tick_full_window h s Hfull) as (v & _ & _ & Heq).
    rewrite Reqb_false in Heq by exact Hval.
    rewrite Rleb_true in Heq by exact Hdue.
    unfold proposal_of, create_proposal in Heq. cbv zeta in Heq.
    eexists _, _, _. split; [exact Heq|].
    cbn [order_side amount]. 
    repeat split; try apply floor_amounts_bounds.
Qed.

Lemma amounts_at_least_min_order_witness :
  (0.0001 <= fst (floor_amounts (skewed_amounts 0.01 3 2)) /\
   0.0001 <= snd (floor_amounts (skewed_amounts 0.01 3 2))) /\
  exists s' buy_order sell_order,
    on_tick example_host example_warm =
      Ok (s', cancel_all_orders example_host
                ++ place_orders
                     (adjust_proposal_to_budget example_host
                                                [buy_order; sell_order]))
    /\ order_side buy_order = BUY /\ 0.0001 <= amount buy_order
    /\ order_side sell_order = SELL /\ 0.0001 <= amount sell_order.
Proof.
  split.
  - apply (proj1 amounts_at_least_min_order 0.01 3 2). lra.
  - apply (proj2 amounts_at_least_min_order example_host example_warm).
    + simpl. unfold maxlen. lia.
    + unfold total_value_of. simpl. lra.
    + simpl. lra.
Defined.

(** ** Quotes under Decimal rounding *)

Lemma rounded_spread_positive (rnd : R -> R) (spread : R) :
  decimal_rounding rnd ->
  1 / 1000000000000000000000000 <= spread ->
  9 * decimal_eps <= rnd (spread / 100).
Proof.
  intros [Hrel _] Hspread.
  pose proof decimal_eps_small as Heps.
  assert (Ht : 10 * decimal_eps <= spread / 100)
    by (unfold decimal_eps in *; lra).
  pose proof (rounded_nonneg rnd (spread / 100) Hrel ltac:(lra)) as [Hlo _].
  nra.
Qed.

Lemma rounded_buy_below (rnd : R -> R) (ref_price bid : R) :
  decimal_rounding rnd ->
  0 < ref_price ->
  1 / 1000000000000000000000000 <= bid ->
  rnd (ref_price * rnd (1 - rnd (bid / 100))) < ref_price.
Proof.
  intros Hrnd Href Hbid.
  pose proof (rounded_spread_positive rnd bid Hrnd Hbid) as Hs.
  destruct Hrnd as [Hrel _].
  pose proof decimal_eps_small as Heps.
  set (e := decimal_eps) in *. set (s := rnd (bid / 100)) in *.
  destruct (Rle_dec 0 (1 - s)) as [Hpos | Hneg].
  - pose proof (rounded_nonneg rnd (1 - s) Hrel Hpos) as [Hylo Hyhi].
    fold e in Hylo, Hyhi. set (y := rnd (1 - s)) in *.
    assert (Hy0 : 0 <= y).
    { apply Rle_trans with ((1 - s) * (1 - e)); [|exact Hylo].
      apply Rmult_le_pos; lra. }
    assert (Hry : 0 <= ref_price * y) by (apply Rmult_le_pos; lra).
    pose proof (rounded_nonneg rnd (ref_price * y) Hrel Hry) as [_ Hbhi].
    fold e in Hbhi.
    assert (Hu : (1 - s) * (1 + e) <= (1 - 9 * e) * (1 + e))
      by (apply Rmult_le_compat_r; lra).
    assert (Hy1 : y * (1 + e) < 1).
    { apply Rle_lt_trans with ((1 - 9 * e) * (1 + e) * (1 + e)).
      - apply Rmult_le_compat_r; lra.
      - nra. }
    apply Rle_lt_trans with (ref_price * y * (1 + e)); [exact Hbhi|].
    rewrite Rmult_assoc. rewrite <- (Rmult_1_r ref_price) at 2.
    apply Rmult_lt_compat_l; assumption.
  - pose proof (rounded_nonpos rnd (1 - s) Hrel ltac:(lra)) as [_ Hyhi].
    fold e in Hyhi. set (y := rnd (1 - s)) in *.
    assert (Hy0 : y <= 0).
    { apply Rle_trans with ((1 - s) * (1 - e)); [exact Hyhi|].
      replace 0 with (0 * (1 - e)) by lra. apply Rmult_le_compat_r; lra. }
    assert (Hry : ref_price * y <= 0).
    { replace 0 with (ref_price * 0) by lra. apply Rmult_le_compat_l; lra. }
    pose proof (rounded_nonpos rnd (ref_price * y) Hrel Hry) as [_ Hbhi].
    fold e in Hbhi.
    apply Rle_lt_trans with (ref_price * y * (1 - e)); [exact Hbhi|].
    apply Rle_lt_trans with 0; [|exact Href].
    replace 0 with (0 * (1 - e)) by lra. apply Rmult_le_compat_r; lra.
Qed.

Lemma rounded_sell_above (rnd : R -> R) (ref_price ask : R) :
  decimal_rounding rnd ->
  0 < ref_price ->
  1 / 1000000000000000000000000 <= ask ->
  ref_price < rnd (ref_price * rnd (1 + rnd (ask / 100))).
Proof.
  intros Hrnd Href Hask.
  pose proof (rounded_spread_positive rnd ask Hrnd Hask) as Hs.
  destruct Hrnd as [Hrel _].
  pose proof decimal_eps_small as Heps.
  set (e := decimal_eps) in *. set (s := rnd (ask / 100)) in *.
  pose proof (rounded_nonneg rnd (1 + s) Hrel ltac:(lra)) as [Hzlo _].
  fold e in Hzlo. set (z := rnd (1 + s)) in *.
  assert (Hu : (1 + 9 * e) * (1 - e) <= (1 + s) * (1 - e))
    by (apply Rmult_le_compat_r; lra).
  assert (Hz1 : 1 < z * (1 - e)).
  { apply Rlt_le_trans with ((1 + 9 * e) * (1 - e) * (1 - e)).
    - nra.
    - apply Rmult_le_compat_r; lra. }
  assert (Hz0 : 0 <= z) by nra.
  assert (Hrz : 0 <= ref_price * z) by (apply Rmult_le_pos; lra).
  pose proof (rounded_nonneg rnd (ref_price * z) Hrel Hrz) as [Hlo _].
  fold e in Hlo.
  apply Rlt_le_trans with (ref_price * z * (1 - e)); [|exact Hlo].
  rewrite Rmult_assoc. rewrite <- (Rmult_1_r ref_price) at 1.
  apply Rmult_lt_compat_l; assumption.
Qed.

Lemma create_proposal_rounded_exact
    (ref_price bid ask buy_amount sell_amount : Decimal) :
  create_proposal_rounded (fun x => x) ref_price bid ask buy_amount sell_amount
    = create_proposal ref_price bid ask buy_amount sell_amount.
Proof. reflexivity. Qed.

(** C4, amended.  With every Decimal operation rounded to 28
    significant digits, [create_proposal] returns exactly two order
    intents, a BUY at reference_price * (1 - bid_spread/100) and a SELL
    at reference_price * (1 + ask_spread/100), with the given sizes; for
    reference price 100 and both spreads 1 the prices are 99.0 and
    101.0; and for a positive reference price and spreads of at least
    1e-24, buy price < reference price < sell price. *)
Theorem create_proposal_rounded_spec (rnd : R -> R) :
  decimal_rounding rnd ->
  (forall ref_price bid ask buy_amount sell_amount : Decimal,
     exists buy_order sell_order,
       create_proposal_rounded rnd ref_price bid ask buy_amount sell_amount
         = [buy_order; sell_order] /\
       order_side buy_order = BUY /\ order_side sell_order = SELL /\
       price buy_order = rnd (ref_price * rnd (1 - rnd (bid / 100))) /\
       price sell_order = rnd (ref_price * rnd (1 + rnd (ask / 100))) /\
       amount buy_order = buy_amount /\ amount sell_order = sell_amount /\
       order_type buy_order = LIMIT /\ order_type sell_order = LIMIT /\
       is_maker buy_order = true /\ is_maker sell_order = true) /\
  (forall buy_amount sell_amount : Decimal,
     map price (create_proposal_rounded rnd 100 1 1 buy_amount sell_amount)
       = [99.0; 101.0]) /\
  (forall ref_price bid ask buy_amount sell_amount : Decimal,
     0 < ref_price ->
     1 / 1000000000000000000000000 <= bid ->
     1 / 1000000000000000000000000 <= ask ->
     forall buy_order sell_order,
       create_proposal_rounded rnd ref_price bid ask buy_amount sell_amount
         = [buy_order; sell_order] ->
       price buy_order < ref_price < price sell_order).
Proof.
  intros Hrnd. split; [|split].
  - intros. eexists _, _. split; [reflexivity|].
    cbn. repeat split; reflexivity.
  - intros. unfold create_proposal_rounded. cbn [map price].
    rewrite (rounded_exact rnd (1 / 100) 1 2 Hrnd)
      by (simpl; try lra; lia).
    rewrite (rounded_exact rnd (1 - 1 / 100) 99 2 Hrnd)
      by (simpl; try lra; lia).
    rewrite (rounded_exact rnd (1 + 1 / 100) 101 2 Hrnd)
      by (simpl; try lra; lia).
    rewrite (rounded_exact rnd (100 * (1 - 1 / 100)) 99 0 Hrnd)
      by (simpl; try lra; lia).
    rewrite (rounded_exact rnd (100 * (1 + 1 / 100)) 101 0 Hrnd)
      by (simpl; try lra; lia).
    repeat f_equal; lra.
  - intros ref_price bid ask ba sa Href Hbid Hask b a Heq.
    unfold create_proposal_rounded in Heq. injection Heq as <- <-.
    cbn [price]. split.
    + apply rounded_buy_below; assumption.
    + apply rounded_sell_above; assumption.
Qed.

Lemma create_proposal_rounded_spec_witness :
  map price (create_proposal_rounded (fun x => x) 100 1 1 0.01 0.01)
    = [99.0; 101.0] /\
  100 * (1 - 1 / 100) < 100 < 100 * (1 + 1 / 100).
Proof.
  destruct (create_proposal_rounded_spec (fun x => x) identity_decimal_rounding)
    as (_ & Hexample & Hstrict).
  split; [apply Hexample|].
  apply (Hstrict 100 1 1 0.01 0.01 ltac:(lra) ltac:(lra) ltac:(lra) _ _ eq_refl).
Defined.

(** ** The paths that touch no order *)

(** C5. On a tick with a full window whose portfolio value
    base_balance * mid_price + quote_balance is 0, [on_tick] returns
    normally: it logs one warning, builds no proposal, cancels and places
    nothing, and leaves [create_timestamp] as it was. *)
Theorem zero_value_skips_tick (h : host) (s : strategy) :
  (maxlen <= length (window_after h s))%nat ->
  get_balance h "BTC" * get_price_by_type h trading_pair price_source
    + get_balance h "USDT" = 0 ->
  exists s' calls,
    on_tick h s = Ok (s', calls) /\
    calls = [warning_zero_value] /\
    touches_orders calls = false /\
    create_timestamp s' = create_timestamp s /\
    ref_prices s' = window_after h s.
Proof.
  intros Hfull Hzero. apply Nat.ltb_ge in Hfull.
  destruct (on_tick_full_window h s Hfull) as (v & _ & _ & Heq).
  rewrite Reqb_true in Heq by exact Hzero.
  eexists _, _. split; [exact Heq|]. repeat split.
Qed.

Lemma zero_value_skips_tick_witness :
  exists s' calls,
    on_tick example_broke example_warm = Ok (s', calls) /\
    calls = [warning_zero_value] /\
    touches_orders calls = false /\
    create_timestamp s' = create_timestamp example_warm /\
    ref_prices s' = window_after example_broke example_warm.
Proof.
  apply (zero_value_skips_tick example_broke example_warm).
  - simpl. unfold maxlen. lia.
  - simpl. lra.
Defined.

(** C6. On a tick after which the window holds fewer than N = 10 prices,
    [on_tick] only appends the price and logs the progress: no proposal,
    no cancel, no order, no other field changed. *)
Theorem warming_tick_only_appends (h : host) (s : strategy) :
  (length (window_after h s) < maxlen)%nat ->
  exists s' calls,
    on_tick h s = Ok (s', calls) /\
    ref_prices s' =
      ref_prices s ++ [get_price_by_type h trading_pair price_source] /\
    create_timestamp s' = create_timestamp s /\
    calls = [LoggerInfo (S (length (ref_prices s))) 10] /\
    touches_orders calls = false.
Proof.
  intros Hlt. eexists _, _. split; [apply on_tick_warming; exact Hlt|].
  repeat split.
Qed.

Lemma warming_tick_only_appends_witness :
  exists s' calls,
    on_tick example_host initial = Ok (s', calls) /\
    ref_prices s' = [] ++ [100] /\
    create_timestamp s' = 0 /\
    calls = [LoggerInfo 1 10] /\
    touches_orders calls = false.
Proof.
  apply (warming_tick_only_appends example_host initial).
  simpl. unfold maxlen. lia.
Defined.

(** ** The refresh timer *)

(** C7. [create_timestamp] changes only on a tick that runs the proposal
    cycle (full window, non-zero value, timer elapsed: cancel, build,
    adjust, place), and then becomes exactly the current time plus the
    refresh interval of 30; on every other tick, and in [did_fill_order],
    it keeps its value. *)
Theorem create_timestamp_set_by_cycle_only :
  (forall (h : host) (s : strategy),
     exists s' calls,
       on_tick h s = Ok (s', calls) /\
       (((length (window_after h s) < maxlen)%nat \/
         total_value_of h = 0 \/
         current_timestamp h < create_timestamp s) /\
        create_timestamp s' = create_timestamp s /\
        touches_orders calls = false
        \/
        ((maxlen <= length (window_after h s))%nat /\
         total_value_of h <> 0 /\
         create_timestamp s <= current_timestamp h) /\
        create_timestamp s' = current_timestamp h + 30 /\
        exists buy_order sell_order,
          calls = cancel_all_orders h
                    ++ place_orders
                         (adjust_proposal_to_budget h
                                                    [buy_order; sell_order])))
  /\
  (forall (s : strategy) (event : OrderFilledEvent),
     create_timestamp (fst (did_fill_order s event)) = create_timestamp s).
Proof.
  split; [|reflexivity].
  intros h s.
  destruct (Nat.ltb (length (window_after h s)) maxlen) eqn:Hfull.
  - apply Nat.ltb_lt in Hfull.
    eexists _, _. split; [apply on_tick_warming; exact Hfull|]. left. auto.
  - destruct (on_tick_full_window h s Hfull) as (v & _ & _ & Heq).
    apply Nat.ltb_ge in Hfull.
    destruct (Reqb (total_value_of h) 0) eqn:Hval.
    + apply Reqb_eq in Hval.
      eexists _, _. split; [exact Heq|]. left. auto.
    + apply Reqb_neq in Hval.
      destruct (Rleb (create_timestamp s) (current_timestamp h)) eqn:Hdue.
      * apply Rleb_le in Hdue.
        eexists _, _. split; [exact Heq|]. right.
        split; [auto|]. split; [reflexivity|].
        unfold proposal_of, create_proposal. cbv zeta.
        eexists _, _. reflexivity.
      * apply Rleb_gt in Hdue.
        eexists _, _. split; [exact Heq|]. left. auto.
Qed.

(** C8. On a tick with a full window, non-zero value and the current time
    strictly before [create_timestamp], no cancel and no submit call is
    made and [create_timestamp] is unchanged; a second such tick right
    after it (its window is full again) makes none either. *)
Theorem idle_ticks_touch_no_order (h1 h2 : host) (s : strategy) :
  (maxlen <= length (window_after h1 s))%nat ->
  total_value_of h1 <> 0 ->
  current_timestamp h1 < create_timestamp s ->
  total_value_of h2 <> 0 ->
  current_timestamp h2 < create_timestamp s ->
  exists s1 s2,
    on_tick h1 s = Ok (s1, []) /\
    create_timestamp s1 = create_timestamp s /\
    (maxlen <= length (window_after h2 s1))%nat /\
    on_tick h2 s1 = Ok (s2, []) /\
    create_timestamp s2 = create_timestamp s.
Proof.
  intros Hfull Hv1 Ht1 Hv2 Ht2.
  pose proof Hfull as Hfull1. apply Nat.ltb_ge in Hfull1.
  destruct (on_tick_full_window h1 s Hfull1) as (v1 & _ & _ & Heq1).
  rewrite Reqb_false in Heq1 by exact Hv1.
  rewrite Rleb_false in Heq1 by exact Ht1.
  set (s1 := mkStrategy (window_after h1 s) (create_timestamp s)) in *.
  assert (Hfull2 : (maxlen <= length (window_after h2 s1))%nat).
  { unfold window_after, s1. cbn [ref_prices].
    apply deque_append_stays_full. exact Hfull. }
  pose proof Hfull2 as Hfull2'. apply Nat.ltb_ge in Hfull2'.
  destruct (on_tick_full_window h2 s1 Hfull2') as (v2 & _ & _ & Heq2).
  rewrite Reqb_false in Heq2 by exact Hv2.
  rewrite Rleb_false in Heq2 by exact Ht2.
  eexists _, _. split; [exact Heq1|]. split; [reflexivity|].
  split; [exact Hfull2|]. split; [exact Heq2|]. reflexivity.
Qed.

Lemma idle_ticks_touch_no_order_witness :
  exists s1 s2,
    on_tick example_host example_idle = Ok (s1, []) /\
    create_timestamp s1 = 1030 /\
    (maxlen <= length (window_after example_host s1))%nat /\
    on_tick example_host s1 = Ok (s2, []) /\
    create_timestamp s2 = 1030.
Proof.
  apply (idle_ticks_touch_no_order example_host example_host example_idle).
  - simpl. unfold maxlen. lia.
  - unfold total_value_of. simpl. lra.
  - simpl. lra.
  - unfold total_value_of. simpl. lra.
  - simpl. lra.
Defined.

(** ** The skew under Decimal rounding *)

Lemma skewed_amounts_rounded_exact (base_amount btc_value total_value : Decimal) :
  skewed_amounts_rounded (fun x => x) base_amount btc_value total_value
    = skewed_amounts base_amount btc_value total_value.
Proof. reflexivity. Qed.

(** The error of a rounded value, relative to the rounded value. *)
Lemma rounded_backward (rnd : R -> R) (x : R) :
  (forall x, Rabs (rnd x - x) <= decimal_eps * Rabs x) ->
  Rabs (rnd x - x) <= 1002 / 1000 * decimal_eps * Rabs (rnd x).
Proof.
  intros Hrel. specialize (Hrel x).
  pose proof decimal_eps_small as Heps.
  assert (Htri : Rabs x <= Rabs (rnd x) + Rabs (rnd x - x)).
  { replace x with (rnd x + - (rnd x - x)) at 1 by lra.
    eapply Rle_trans; [apply Rabs_triang|]. rewrite Rabs_Ropp. lra. }
  pose proof (Rabs_pos x). pose proof (Rabs_pos (rnd x)).
  set (d := Rabs (rnd x - x)) in *. set (X := Rabs x) in *.
  set (Y := Rabs (rnd x)) in *. set (e := decimal_eps) in *.
  assert (HeX : e * X <= X / 1000).
  { replace (X / 1000) with (1 / 1000 * X) by lra.
    apply Rmult_le_compat_r; lra. }
  assert (HX : X <= 1002 / 1000 * Y) by lra.
  apply Rle_trans with (e * X); [exact Hrel|].
  replace (1002 / 1000 * e * Y) with (e * (1002 / 1000 * Y)) by lra.
  apply Rmult_le_compat_l; lra.
Qed.

(** Two roundings in a row: the product [base * u], with [u] rounded
    first and the product rounded after. *)
Lemma rounded_product (rnd : R -> R) (base u : R) :
  (forall x, Rabs (rnd x - x) <= decimal_eps * Rabs x) ->
  Rabs (rnd (base * rnd u) - base * u)
    <= 3 * decimal_eps * Rabs (rnd (base * rnd u)).
Proof.
  intros Hrel.
  pose proof decimal_eps_small as Heps.
  pose proof (rounded_backward rnd (base * rnd u) Hrel) as Hout.
  pose proof (rounded_backward rnd u Hrel) as Hin.
  assert (Hinner : Rabs (base * rnd u - base * u)
                   <= 1002 / 1000 * decimal_eps * Rabs (base * rnd u)).
  { replace (base * rnd u - base * u) with (base * (rnd u - u)) by lra.
    rewrite !Rabs_mult.
    replace (1002 / 1000 * decimal_eps * (Rabs base * Rabs (rnd u)))
      with (Rabs base * (1002 / 1000 * decimal_eps * Rabs (rnd u))) by lra.
    apply Rmult_le_compat_l; [apply Rabs_pos | exact Hin]. }
  assert (Htri : Rabs (base * rnd u)
                 <= Rabs (rnd (base * rnd u))
                    + Rabs (rnd (base * rnd u) - base * rnd u)).
  { replace (base * rnd u)
      with (rnd (base * rnd u) + - (rnd (base * rnd u) - base * rnd u))
      at 1 by lra.
    eapply Rle_trans; [apply Rabs_triang|]. rewrite Rabs_Ropp. lra. }
  assert (Hsplit : Rabs (rnd (base * rnd u) - base * u)
                   <= Rabs (rnd (base * rnd u) - base * rnd u)
                      + Rabs (base * rnd u - base * u)).
  { replace (rnd (base * rnd u) - base * u)
      with ((rnd (base * rnd u) - base * rnd u) + (base * rnd u - base * u))
      by lra.
    apply Rabs_triang. }
  pose proof (Rabs_pos (rnd (base * rnd u))).
  pose proof (Rabs_pos (base * rnd u)).
  set (B := Rabs (rnd (base * rnd u))) in *.
  set (P := Rabs (base * rnd u)) in *.
  set (d1 := Rabs (rnd (base * rnd u) - base * rnd u)) in *.
  set (d2 := Rabs (base * rnd u - base * u)) in *.
  set (e := decimal_eps) in *.
  pose proof (Rabs_pos (rnd (base * rnd u) - base * rnd u)) as Hd1.
  fold d1 in Hd1.
  assert (HeB : 0 <= e * B) by (apply Rmult_le_pos; lra).
  assert (Hed1 : e * d1 <= d1 / 1000).
  { replace (d1 / 1000) with (1 / 1000 * d1) by lra.
    apply Rmult_le_compat_r; lra. }
  assert (HeP : e * P <= e * B + e * d1).
  { rewrite <- Rmult_plus_distr_l. apply Rmult_le_compat_l; lra. }
  lra.
Qed.

(** C10, amended.  With every Decimal operation rounded to 28
    significant digits the skew is zero-sum up to rounding: when
    total_value <> 0 the buy and sell amounts before the floor add up to
    2 * base_amount within 3e-27 of their absolute values, and whenever
    neither min_order floor binds the quoted sizes are these amounts. *)
Theorem skew_is_zero_sum_up_to_rounding (rnd : R -> R)
    (base_amount btc_value total_value : Decimal) :
  decimal_rounding rnd ->
  total_value <> 0 ->
  let pre := skewed_amounts_rounded rnd base_amount btc_value total_value in
  Rabs (fst pre + snd pre - 2 * base_amount)
    <= 3 * decimal_eps * (Rabs (fst pre) + Rabs (snd pre)) /\
  (0.0001 <= fst pre -> 0.0001 <= snd pre ->
   floor_amounts pre = pre /\
   Rabs (fst (floor_amounts pre) + snd (floor_amounts pre) - 2 * base_amount)
     <= 3 * decimal_eps * (fst (floor_amounts pre) + snd (floor_amounts pre))).
Proof.
  intros [Hrel _] _ pre.
  assert (Hsum : Rabs (fst pre + snd pre - 2 * base_amount)
                 <= 3 * decimal_eps * (Rabs (fst pre) + Rabs (snd pre))).
  { unfold pre, skewed_amounts_rounded. cbn [fst snd].
    set (w := rnd (1.5 * rnd (rnd (btc_value / total_value) - 0.5))).
    pose proof (rounded_product rnd base_amount (1.0 - w) Hrel) as Hb.
    pose proof (rounded_product rnd base_amount (1.0 + w) Hrel) as Hs.
    set (buy := rnd (base_amount * rnd (1.0 - w))) in *.
    set (sell := rnd (base_amount * rnd (1.0 + w))) in *.
    replace (buy + sell - 2 * base_amount)
      with ((buy - base_amount * (1.0 - w)) + (sell - base_amount * (1.0 + w)))
      by lra.
    eapply Rle_trans; [apply Rabs_triang|]. lra. }
  split; [exact Hsum|].
  clearbody pre. intros Hb Hs.
  assert (Hfloor : floor_amounts pre = pre).
  { destruct pre as [b s]. cbn [fst snd] in *.
    unfold floor_amounts. cbv beta zeta. cbn [fst snd].
    rewrite (Rmax_left b) by exact Hb. rewrite (Rmax_left s) by exact Hs.
    reflexivity. }
  split; [exact Hfloor|].
  rewrite Hfloor.
  rewrite (Rabs_right (fst pre)), (Rabs_right (snd pre)) in Hsum by lra.
  exact Hsum.
Qed.

Lemma skew_is_zero_sum_up_to_rounding_witness :
  Rabs (fst (skewed_amounts 0.01 3 4) + snd (skewed_amounts 0.01 3 4) - 2 * 0.01)
    <= 3 * decimal_eps
       * (Rabs (fst (skewed_amounts 0.01 3 4))
          + Rabs (snd (skewed_amounts 0.01 3 4))) /\
  floor_amounts (skewed_amounts 0.01 3 4) = skewed_amounts 0.01 3 4.
Proof.
  destruct (skew_is_zero_sum_up_to_rounding (fun x => x) 0.01 3 4
              identity_decimal_rounding ltac:(lra)) as [Hsum Hfloor].
  split; [exact Hsum|].
  apply Hfloor; unfold skewed_amounts_rounded; cbn [fst snd]; lra.
Defined.

(** ** Evaluations on 28-digit decimals *)

(** C4, as stated, fails on 28-digit decimals: at reference price 100
    with both spreads 1E-30 the buy price is not below the reference
    price (both prices are 100.0000000000000000000000000). *)
Lemma proposal_prices_tiny_spread :
  ~ (exists buy_price sell_price,
       Decimal28.proposal_prices (Decimal28.Dec 100 0) (Decimal28.Dec 1 (-30))
                                 (Decimal28.Dec 1 (-30))
         = Some (buy_price, sell_price) /\
       Decimal28.ltb buy_price (Decimal28.Dec 100 0) = true /\
       Decimal28.ltb (Decimal28.Dec 100 0) sell_price = true).
Proof.
  intros (buy_price & sell_price & Heq & Hbuy & _).
  vm_compute in Heq. injection Heq as <- <-.
  vm_compute in Hbuy. discriminate.
Qed.

Lemma proposal_prices_tiny_spread_values :
  Decimal28.proposal_prices (Decimal28.Dec 100 0) (Decimal28.Dec 1 (-30))
                            (Decimal28.Dec 1 (-30))
    = Some (Decimal28.Dec 1000000000000000000000000000 (-25),
            Decimal28.Dec 1000000000000000000000000000 (-25)) /\
  Decimal28.proposal_prices (Decimal28.Dec 100 0) (Decimal28.Dec 1 0)
                            (Decimal28.Dec 1 0)
    = Some (Decimal28.Dec 9900000000000000000000000000 (-26),
            Decimal28.Dec 1010000000000000000000000000 (-25)).
Proof. split; vm_compute; reflexivity. Qed.


(** C10, as stated, fails on 28-digit decimals: for the base amount of
    the scenario on a balanced tick (base value 100, total value 200) the
    two amounts before the floor do not add up to twice the base amount,
    neither exactly nor as Python evaluates [buy + sell == 2 * base]. *)
Lemma skew_sum_not_exact :
  ~ (forall base_amount btc_value total_value buy_amount sell_amount,
       Decimal28.skewed_amounts base_amount btc_value total_value
         = Some (buy_amount, sell_amount) ->
       Decimal28.eqb (Decimal28.add_exact buy_amount sell_amount)
                     (Decimal28.add_exact base_amount base_amount) = true \/
       Decimal28.eqb (Decimal28.add buy_amount sell_amount)
                     (Decimal28.mul (Decimal28.Dec 2 0) base_amount) = true).
Proof.
  intros H.
  specialize (H (Decimal28.Dec
                   1120106432343090027692333876530028646811842918395996093750
                   (-59))
                (Decimal28.Dec 100 0) (Decimal28.Dec 200 0)
                (Decimal28.Dec 1120106432343090027692333877 (-29))
                (Decimal28.Dec 1120106432343090027692333877 (-29))).
  vm_compute in H. destruct (H eq_refl); discriminate.
Qed.

(** On a tick with three quarters of the value in the base asset the
    exact sum is off as well. *)
Lemma skew_sum_not_exact_skewed :
  Decimal28.skewed_amounts
    (Decimal28.Dec 1120106432343090027692333876530028646811842918395996093750
                   (-59))
    (Decimal28.Dec 300 0) (Decimal28.Dec 400 0)
  = Some (Decimal28.Dec 7000665202144312673077086728 (-30),
          Decimal28.Dec 1540146344471748788076959080 (-29)) /\
  Decimal28.eqb
    (Decimal28.add_exact (Decimal28.Dec 7000665202144312673077086728 (-30))
                         (Decimal28.Dec 1540146344471748788076959080 (-29)))
    (Decimal28.add_exact
       (Decimal28.Dec
          1120106432343090027692333876530028646811842918395996093750 (-59))
       (Decimal28.Dec
          1120106432343090027692333876530028646811842918395996093750 (-59)))
  = false.
Proof. split; vm_compute; reflexivity. Qed.


(** At the scenario's binary64 scale the 28-digit prices straddle 100:
    99.99120106432343089986058970 and 100.0087989356765691001394103. *)
Lemma scenario_prices :
  Decimal28.of_float
    (Binary64.dynamic_spread_float
       (Binary64.scale Binary64.exp_at_epsilon 0.0001))
  = Some (Decimal28.Dec
            879893567656910013941029546913341619074344635009765625000 (-59))
  /\
  Decimal28.proposal_prices
    (Decimal28.Dec 100 0)
    (Decimal28.Dec 879893567656910013941029546913341619074344635009765625000
                   (-59))
    (Decimal28.Dec 879893567656910013941029546913341619074344635009765625000
                   (-59))
  = Some (Decimal28.Dec 9999120106432343089986058970 (-26),
          Decimal28.Dec 1000087989356765691001394103 (-25)) /\
  Decimal28.ltb (Decimal28.Dec 9999120106432343089986058970 (-26))
                (Decimal28.Dec 100 0) = true /\
  Decimal28.ltb (Decimal28.Dec 100 0)
                (Decimal28.Dec 1000087989356765691001394103 (-25)) = true.
Proof. repeat split; vm_compute; reflexivity. Qed.

(** ** The scenario of ten identical prices *)





(** ** The scenario of ten identical prices, with rounding *)






(** * Further properties of the code *)

(** ** The price window over a run of ticks *)

Lemma on_tick_window (h : host) (s s' : strategy) (calls : list call) :
  on_tick h s = Ok (s', calls) -> ref_prices s' = window_after h s.
Proof.
  intros Heq.
  destruct (Nat.ltb (length (window_after h s)) maxlen) eqn:Hfull.
  - apply Nat.ltb_lt in Hfull.
    pose proof (deque_append_not_full _ _ Hfull) as Happ.
    rewrite (on_tick_warming h s Hfull) in Heq. injection Heq as <- _.
    unfold window_after in *. rewrite Happ. reflexivity.
  - destruct (on_tick_full_window h s Hfull) as (v & _ & _ & Hpath).
    rewrite Hpath in Heq.
    destruct (Reqb (total_value_of h) 0);
      [|destruct (Rleb (create_timestamp s) (current_timestamp h))];
      injection Heq as <- _; reflexivity.
Qed.

Lemma keep_last_app {A : Type} (n : nat) (l r : list A) :
  keep_last n (keep_last n l ++ r) = keep_last n (l ++ r).
Proof.
  unfold keep_last.
  rewrite !length_app, length_skipn.
  set (k := (length l - n)%nat).
  replace (skipn k l ++ r) with (skipn k (l ++ r)).
  2:{ rewrite skipn_app. replace (k - length l)%nat with 0%nat by (unfold k; lia).
      reflexivity. }
  rewrite skipn_skipn. f_equal. unfold k. lia.
Qed.

Lemma deque_append_keep_last (d : list Decimal) (x : Decimal) :
  (length d <= maxlen)%nat ->
  deque_append d x = keep_last maxlen (d ++ [x]).
Proof.
  intros Hlen. unfold deque_append, keep_last. rewrite length_app.
  cbn [length].
  destruct (maxlen <=? length d)%nat eqn:Hfull.
  - apply Nat.leb_le in Hfull.
    replace (length d + 1 - maxlen)%nat with 1%nat by lia.
    destruct d; simpl in *; [unfold maxlen in Hfull; lia | reflexivity].
  - apply Nat.leb_gt in Hfull.
    replace (length d + 1 - maxlen)%nat with 0%nat by lia. reflexivity.
Qed.

Lemma keep_last_length {A : Type} (n : nat) (l : list A) :
  length (keep_last n l) = Nat.min n (length l).
Proof. unfold keep_last. rewrite length_skipn. lia. Qed.

Lemma keep_last_all {A : Type} (n : nat) (l : list A) :
  (length l <= n)%nat -> keep_last n l = l.
Proof.
  intros Hlen. unfold keep_last.
  replace (length l - n)%nat with 0%nat by lia. reflexivity.
Qed.

(** X1. Any run of ticks returns, and afterwards the window holds exactly
    the last [maxlen] = 10 prices seen (earlier window followed by the
    prices of the run), oldest first: the deque is first-in first-out and
    every tick records its price, whatever path it takes. *)
Theorem run_ticks_window (hs : list host) (s : strategy) :
  (length (ref_prices s) <= maxlen)%nat ->
  exists s' calls,
    run_ticks hs s = Ok (s', calls) /\
    ref_prices s' = keep_last maxlen (ref_prices s ++ map tick_price hs) /\
    length (ref_prices s') =
      Nat.min maxlen (length (ref_prices s) + length hs).
Proof.
  revert s. induction hs as [|h hs IH]; intros s Hlen.
  - exists s, []. split; [reflexivity|].
    cbn [map length]. rewrite app_nil_r, Nat.add_0_r.
    rewrite keep_last_all by exact Hlen. split; [reflexivity|].
    symmetry. apply Nat.min_r. exact Hlen.
  - destruct (on_tick_returns h s) as (s1 & c1 & H1).
    pose proof (on_tick_window h s s1 c1 H1) as Hw.
    unfold window_after in Hw. fold (tick_price h) in Hw.
    rewrite deque_append_keep_last in Hw by exact Hlen.
    assert (Hlen1 : (length (ref_prices s1) <= maxlen)%nat).
    { rewrite Hw, keep_last_length. lia. }
    destruct (IH s1 Hlen1) as (s2 & c2 & H2 & Hw2 & Hl2).
    exists s2, (c1 ++ c2). split.
    + simpl. rewrite H1. simpl. rewrite H2. reflexivity.
    + assert (Heq : ref_prices s2
                    = keep_last maxlen (ref_prices s ++ map tick_price (h :: hs))).
      { rewrite Hw2, Hw, keep_last_app, <- app_assoc. reflexivity. }
      split; [exact Heq|].
      rewrite Heq, keep_last_length, length_app, length_map. reflexivity.
Qed.

Lemma run_ticks_window_witness :
  exists s' calls,
    run_ticks [example_host; example_broke] example_warm = Ok (s', calls) /\
    ref_prices s' =
      keep_last maxlen (ref_prices example_warm
                          ++ map tick_price [example_host; example_broke]) /\
    length (ref_prices s') =
      Nat.min maxlen (length (ref_prices example_warm) + 2).
Proof.
  apply (run_ticks_window [example_host; example_broke] example_warm).
  simpl. unfold maxlen. lia.
Defined.

(** ** Warm-up, first cycle and the refresh timer over several ticks *)

Lemma run_ticks_app (hs1 hs2 : list host) (s : strategy) :
  run_ticks (hs1 ++ hs2) s =
    (r1 <- run_ticks hs1 s ;;
     r2 <- run_ticks hs2 (fst r1) ;;
     Ok (fst r2, snd r1 ++ snd r2)).
Proof.
  revert s. induction hs1 as [|h hs1 IH]; intros s.
  - simpl. destruct (run_ticks hs2 s) as [[s2 c2]|e]; reflexivity.
  - simpl. destruct (on_tick h s) as [[s1 c1]|e]; [|reflexivity].
    simpl. rewrite IH.
    destruct (run_ticks hs1 s1) as [[sa ca]|e]; [|reflexivity].
    simpl. destruct (run_ticks hs2 sa) as [[sb cb]|e]; [|reflexivity].
    simpl. rewrite app_assoc. reflexivity.
Qed.

(** X2. While the window stays short of 10 prices, a run of ticks only
    appends the prices and logs the progress k/10 once per tick: no order
    call at all, and [create_timestamp] untouched. *)
Theorem warm_up_only_logs (hs : list host) (s : strategy) :
  (length (ref_prices s) + length hs < maxlen)%nat ->
  run_ticks hs s =
    Ok (mkStrategy (ref_prices s ++ map tick_price hs) (create_timestamp s),
        map (fun k => LoggerInfo k 10)
            (seq (S (length (ref_prices s))) (length hs))).
Proof.
  revert s. induction hs as [|h hs IH]; intros [w t] Hlen.
  - simpl. rewrite app_nil_r. reflexivity.
  - cbn [ref_prices create_timestamp length] in *.
    assert (Hshort : (length (window_after h (mkStrategy w t)) < maxlen)%nat).
    { unfold window_after. rewrite deque_append_length. cbn [ref_prices].
      destruct (maxlen <=? length w)%nat eqn:Hfull; [|lia].
      apply Nat.leb_le in Hfull. lia. }
    cbn [run_ticks]. rewrite (on_tick_warming _ _ Hshort).
    cbn [bind fst snd ref_prices create_timestamp].
    rewrite IH.
    2:{ cbn [ref_prices]. rewrite length_app. simpl. lia. }
    cbn [bind fst snd ref_prices create_timestamp map seq].
    rewrite <- app_assoc, length_app. simpl.
    rewrite Nat.add_1_r. reflexivity.
Qed.

Lemma warm_up_only_logs_witness :
  run_ticks [example_host; example_broke] initial =
    Ok (mkStrategy [100; 100] 0, [LoggerInfo 1 10; LoggerInfo 2 10]).
Proof.
  apply (warm_up_only_logs [example_host; example_broke] initial).
  simpl. unfold maxlen. lia.
Defined.

(** X3. Started from the class defaults, the strategy runs its first
    cancel/replace cycle on the tenth tick (non-zero portfolio value,
    clock not before 0): nine progress logs, then the cancels and the
    adjusted two-order proposal, and the timer armed at now + 30. *)
Theorem first_cycle_on_tenth_tick (hs : list host) (h : host) :
  length hs = 9%nat ->
  total_value_of h <> 0 ->
  0 <= current_timestamp h ->
  exists buy_order sell_order,
    run_ticks (hs ++ [h]) initial =
      Ok (mkStrategy (map tick_price hs ++ [tick_price h])
                     (current_timestamp h + 30),
          map (fun k => LoggerInfo k 10) (seq 1 9)
            ++ cancel_all_orders h
            ++ place_orders
                 (adjust_proposal_to_budget h [buy_order; sell_order]))
    /\ order_side buy_order = BUY /\ order_side sell_order = SELL.
Proof.
  intros Hlen Hval Hclock.
  rewrite run_ticks_app, warm_up_only_logs
    by (simpl; rewrite Hlen; unfold maxlen; lia).
  cbn [bind fst snd ref_prices create_timestamp initial app length].
  rewrite Hlen.
  set (s9 := mkStrategy (map tick_price hs) 0).
  assert (Hwin : window_after h s9 = map tick_price hs ++ [tick_price h]).
  { unfold window_after, s9, deque_append. cbn [ref_prices].
    rewrite length_map, Hlen. reflexivity. }
  assert (Hfull : (length (window_after h s9) <? maxlen)%nat = false).
  { rewrite Hwin, length_app, length_map, Hlen. reflexivity. }
  destruct (on_tick_full_window h s9 Hfull) as (v & _ & _ & Hpath).
  rewrite Reqb_false in Hpath by exact Hval.
  rewrite Rleb_true in Hpath by exact Hclock.
  cbn [run_ticks]. rewrite Hpath, Hwin.
  cbn [bind fst snd]. rewrite app_nil_r.
  unfold proposal_of, create_proposal. cbv zeta.
  eexists _, _. split; [reflexivity|]. split; reflexivity.
Qed.

Lemma first_cycle_on_tenth_tick_witness :
  exists buy_order sell_order,
    run_ticks (repeat example_broke 9 ++ [example_host]) initial =
      Ok (mkStrategy (map tick_price (repeat example_broke 9)
                        ++ [tick_price example_host])
                     (current_timestamp example_host + 30),
          map (fun k => LoggerInfo k 10) (seq 1 9)
            ++ cancel_all_orders example_host
            ++ place_orders
                 (adjust_proposal_to_budget example_host
                                            [buy_order; sell_order]))
    /\ order_side buy_order = BUY /\ order_side sell_order = SELL.
Proof.
  apply (first_cycle_on_tenth_tick (repeat example_broke 9) example_host).
  - reflexivity.
  - unfold total_value_of. simpl. lra.
  - simpl. lra.
Defined.

Lemma window_after_stays_full (h1 h2 : host) (s s1 : strategy) :
  (maxlen <= length (window_after h1 s))%nat ->
  ref_prices s1 = window_after h1 s ->
  (length (window_after h2 s1) <? maxlen)%nat = false.
Proof.
  intros Hfull Hw. apply Nat.ltb_ge. unfold window_after. rewrite Hw.
  apply deque_append_stays_full. exact Hfull.
Qed.

(** X4. After a tick that ran the cancel/replace cycle at time [now], a
    following tick whose clock is still before [now + 30] makes no cancel
    and no submit call and leaves the timer at [now + 30]: at most one
    cycle per refresh interval. *)
Theorem refresh_then_quiet (h1 h2 : host) (s : strategy) :
  (maxlen <= length (window_after h1 s))%nat ->
  total_value_of h1 <> 0 ->
  create_timestamp s <= current_timestamp h1 ->
  current_timestamp h2 < current_timestamp h1 + 30 ->
  exists s1 calls1 s2 calls2,
    on_tick h1 s = Ok (s1, calls1) /\
    create_timestamp s1 = current_timestamp h1 + 30 /\
    on_tick h2 s1 = Ok (s2, calls2) /\
    touches_orders calls2 = false /\
    create_timestamp s2 = current_timestamp h1 + 30.
Proof.
  intros Hfull Hval Hdue Hsoon.
  pose proof Hfull as Hfull1. apply Nat.ltb_ge in Hfull1.
  destruct (on_tick_full_window h1 s Hfull1) as (v1 & _ & _ & Hp1).
  rewrite Reqb_false in Hp1 by exact Hval.
  rewrite Rleb_true in Hp1 by exact Hdue.
  set (s1 := mkStrategy (window_after h1 s)
                        (current_timestamp h1 + order_refresh_time)) in *.
  assert (Hfull2 : (length (window_after h2 s1) <? maxlen)%nat = false).
  { apply (window_after_stays_full h1 h2 s s1 Hfull). reflexivity. }
  destruct (on_tick_full_window h2 s1 Hfull2) as (v2 & _ & _ & Hp2).
  rewrite (Rleb_false (create_timestamp s1)) in Hp2
    by (unfold s1, order_refresh_time; cbn [create_timestamp]; lra).
  eexists _, _. 
  destruct (Reqb (total_value_of h2) 0);
    eexists _, _; (split; [exact Hp1|]); (split; [reflexivity|]);
    (split; [exact Hp2|]); split; reflexivity.
Qed.

Lemma refresh_then_quiet_witness :
  exists s1 calls1 s2 calls2,
    on_tick example_host example_warm = Ok (s1, calls1) /\
    create_timestamp s1 = current_timestamp example_host + 30 /\
    on_tick example_host s1 = Ok (s2, calls2) /\
    touches_orders calls2 = false /\
    create_timestamp s2 = current_timestamp example_host + 30.
Proof.
  apply (refresh_then_quiet example_host example_host example_warm).
  - simpl. unfold maxlen. lia.
  - unfold total_value_of. simpl. lra.
  - simpl. lra.
  - simpl. lra.
Defined.

Lemma on_tick_timer_monotone (h : host) (s s' : strategy) (calls : list call) :
  on_tick h s = Ok (s', calls) ->
  create_timestamp s' = create_timestamp s \/
  create_timestamp s + 30 <= create_timestamp s'.
Proof.
  intros Heq.
  destruct (Nat.ltb (length (window_after h s)) maxlen) eqn:Hfull.
  - apply Nat.ltb_lt in Hfull.
    rewrite (on_tick_warming h s Hfull) in Heq. injection Heq as <- _.
    left. reflexivity.
  - destruct (on_tick_full_window h s Hfull) as (v & _ & _ & Hpath).
    rewrite Hpath in Heq.
    destruct (Reqb (total_value_of h) 0);
      [injection Heq as <- _; left; reflexivity|].
    destruct (Rleb (create_timestamp s) (current_timestamp h)) eqn:Hdue;
      injection Heq as <- _; [right | left; reflexivity].
    apply Rleb_le in Hdue. unfold order_refresh_time.
    cbn [create_timestamp]. lra.
Qed.

(** X5. Over any run of ticks the refresh timer never moves back: each
    tick keeps [create_timestamp] or raises it by at least 30. *)
Theorem timer_never_moves_back (hs : list host) (s : strategy) :
  exists s' calls,
    run_ticks hs s = Ok (s', calls) /\
    create_timestamp s <= create_timestamp s' /\
    (create_timestamp s' = create_timestamp s \/
     create_timestamp s + 30 <= create_timestamp s').
Proof.
  revert s. induction hs as [|h hs IH]; intros s.
  - exists s, []. split; [reflexivity|]. split; [lra | left; reflexivity].
  - destruct (on_tick_returns h s) as (s1 & c1 & H1).
    pose proof (on_tick_timer_monotone h s s1 c1 H1) as Hm1.
    destruct (IH s1) as (s2 & c2 & H2 & Hle & Hm2).
    exists s2, (c1 ++ c2). split.
    + simpl. rewrite H1. simpl. rewrite H2. reflexivity.
    + split; [lra|]. destruct Hm1 as [E1|G1], Hm2 as [E2|G2].
      * left. lra.
      * right. lra.
      * right. lra.
      * right. lra.
Qed.

(** X6. When the budget checker rejects the whole proposal, a tick whose
    timer has elapsed still cancels every resting order, places nothing,
    and arms the timer at now + 30. *)
Theorem rejected_proposal_still_cancels (h : host) (s : strategy) :
  (maxlen <= length (window_after h s))%nat ->
  total_value_of h <> 0 ->
  create_timestamp s <= current_timestamp h ->
  (forall proposal, adjust_candidates h proposal true = []) ->
  on_tick h s =
    Ok (mkStrategy (window_after h s) (current_timestamp h + 30),
        map (fun order => Cancel exchange (lo_trading_pair order)
                                 (client_order_id order))
            (get_active_orders h exchange)).
Proof.
  intros Hfull Hval Hdue Hrej. apply Nat.ltb_ge in Hfull.
  destruct (on_tick_full_window h s Hfull) as (v & _ & _ & Hpath).
  rewrite Reqb_false in Hpath by exact Hval.
  rewrite Rleb_true in Hpath by exact Hdue.
  rewrite Hpath. unfold adjust_proposal_to_budget. rewrite Hrej.
  unfold place_orders, cancel_all_orders, order_refresh_time.
  cbn [flat_map]. rewrite app_nil_r. reflexivity.
Qed.

Lemma rejected_proposal_still_cancels_witness :
  on_tick example_rejecting example_warm =
    Ok (mkStrategy (window_after example_rejecting example_warm)
                   (current_timestamp example_rejecting + 30),
        map (fun order => Cancel exchange (lo_trading_pair order)
                                 (client_order_id order))
            (get_active_orders example_rejecting exchange)).
Proof.
  apply (rejected_proposal_still_cancels example_rejecting example_warm).
  - simpl. unfold maxlen. lia.
  - unfold total_value_of. simpl. lra.
  - simpl. lra.
  - reflexivity.
Defined.

(** ** What a refreshing tick quotes *)

Lemma exp_half_upper : exp 0.5 < 1.7.
Proof.
  set (a := exp 0.0625).
  assert (Ha : 0 < a) by apply exp_pos.
  assert (Hhi : a < 1.0667).
  { pose proof (exp_ineq1 (Ropp 0.0625)) as Hneg.
    rewrite exp_Ropp in Hneg. fold a in Hneg.
    assert (Hinv : 0.9375 < / a) by lra.
    assert (Hone : a * / a = 1) by (apply Rinv_r; lra).
    nra. }
  replace 0.5 with (((0.0625 + 0.0625) + (0.0625 + 0.0625))
                    + ((0.0625 + 0.0625) + (0.0625 + 0.0625))) by lra.
  rewrite !exp_plus. fold a.
  set (b := a * a). assert (Hb : 0 < b < 1.1379) by (unfold b; nra).
  set (c := b * b). assert (Hc : 0 < c < 1.2949) by (unfold c; nra).
  nra.
Qed.

Lemma spec_scale_positive_reading (v : R) : 0 < v -> 0.5 < spec_scale v < 1.13.
Proof.
  intros Hv. split; [apply spec_scale_bounds|].
  apply Rlt_trans with (spec_scale 0); [apply spec_scale_decreasing; exact Hv|].
  unfold spec_scale.
  replace (- (0 - 0.005) * 100) with 0.5 by lra.
  pose proof exp_half_upper as Hhi. pose proof (exp_pos 0.5) as Hpos.
  set (e := exp 0.5) in *.
  assert (Hinv : (1 + e) * / (1 + e) = 1) by (apply Rinv_r; lra).
  unfold Rdiv. rewrite Rmult_1_l.
  set (i := / (1 + e)) in *. nra.
Qed.

(** X7. Whatever the window holds, the scale computed from its volatility
    reading is at least 0.5 and below 1.13: the reading is positive, so
    the size multiplier never reaches the upper part of its range. *)
Theorem scale_of_reading_bounds (prices : list npfloat) :
  exists scale,
    scale_of_volatility (volatility_of_prices prices) = Fin scale /\
    0.5 <= scale < 1.13.
Proof.
  destruct (volatility_of_prices_positive prices) as (v & -> & Hv).
  exists (spec_scale v).
  split; [apply scale_of_volatility_Fin|].
  pose proof (spec_scale_positive_reading v Hv). lra.
Qed.

(** A refreshing tick hands the budget checker [proposal_of h v] for a
    positive reading [v]. *)
Lemma refreshing_tick_proposal (h : host) (s : strategy) :
  (maxlen <= length (window_after h s))%nat ->
  total_value_of h <> 0 ->
  create_timestamp s <= current_timestamp h ->
  exists v,
    0 < v /\
    on_tick h s =
      Ok (mkStrategy (window_after h s) (current_timestamp h + 30),
          cancel_all_orders h
            ++ place_orders (adjust_proposal_to_budget h (proposal_of h v))).
Proof.
  intros Hfull Hval Hdue. apply Nat.ltb_ge in Hfull.
  destruct (on_tick_full_window h s Hfull) as (v & _ & Hv & Hpath).
  rewrite Reqb_false in Hpath by exact Hval.
  rewrite Rleb_true in Hpath by exact Hdue.
  exists v. split; [exact Hv | exact Hpath].
Qed.

(** X8. On a refreshing tick with a positive reference price the buy
    quote lies below and the sell quote above it, each between 0.0087%
    and 0.015% of the price away. *)
Theorem refreshing_tick_quotes (h : host) (s : strategy) :
  (maxlen <= length (window_after h s))%nat ->
  total_value_of h <> 0 ->
  create_timestamp s <= current_timestamp h ->
  0 < tick_price h ->
  exists s' buy_order sell_order,
    on_tick h s =
      Ok (s', cancel_all_orders h
                ++ place_orders
                     (adjust_proposal_to_budget h [buy_order; sell_order])) /\
    order_side buy_order = BUY /\ order_side sell_order = SELL /\
    0.000087 * tick_price h < tick_price h - price buy_order
      < 0.00015 * tick_price h /\
    0.000087 * tick_price h < price sell_order - tick_price h
      < 0.00015 * tick_price h.
Proof.
  intros Hfull Hval Hdue Hprice.
  destruct (refreshing_tick_proposal h s Hfull Hval Hdue) as (v & Hv & Hpath).
  pose proof (spec_scale_positive_reading v Hv) as Hsc.
  unfold proposal_of, create_proposal in Hpath. cbv zeta in Hpath.
  fold (tick_price h) in Hpath.
  eexists _, _, _. split; [exact Hpath|].
  cbn [order_side price].
  set (p := tick_price h) in *. set (sc := spec_scale v) in *.
  split; [reflexivity|]. split; [reflexivity|].
  split; split; nra.
Qed.

Lemma refreshing_tick_quotes_witness :
  exists s' buy_order sell_order,
    on_tick example_host example_warm =
      Ok (s', cancel_all_orders example_host
                ++ place_orders
                     (adjust_proposal_to_budget example_host
                                                [buy_order; sell_order])) /\
    order_side buy_order = BUY /\ order_side sell_order = SELL /\
    0.000087 * tick_price example_host
      < tick_price example_host - price buy_order
      < 0.00015 * tick_price example_host /\
    0.000087 * tick_price example_host
      < price sell_order - tick_price example_host
      < 0.00015 * tick_price example_host.
Proof.
  apply (refreshing_tick_quotes example_host example_warm).
  - simpl. unfold maxlen. lia.
  - unfold total_value_of. simpl. lra.
  - simpl. lra.
  - unfold tick_price. simpl. lra.
Defined.

(** ** The inventory skew *)

Lemma skewed_amounts_share (base_amount btc_value total_value : Decimal) :
  0 < total_value ->
  0 <= btc_value <= total_value ->
  0 <= base_amount ->
  0.25 * base_amount
    <= fst (skewed_amounts base_amount btc_value total_value)
    <= 1.75 * base_amount /\
  0.25 * base_amount
    <= snd (skewed_amounts base_amount btc_value total_value)
    <= 1.75 * base_amount.
Proof.
  intros Htot Hshare Hbase. unfold skewed_amounts. cbn [fst snd].
  set (r := btc_value / total_value).
  assert (Hr : 0 <= r <= 1).
  { unfold r. split.
    - apply Rmult_le_pos; [lra|]. left. apply Rinv_0_lt_compat. exact Htot.
    - apply (Rmult_le_reg_r total_value); [exact Htot|].
      unfold Rdiv. rewrite Rmult_assoc, Rinv_l by lra. lra. }
  split; split; nra.
Qed.

Lemma skew_pre_floor_sum (base_amount btc_value total_value : Decimal) :
  total_value <> 0 ->
  fst (skewed_amounts base_amount btc_value total_value)
  + snd (skewed_amounts base_amount btc_value total_value) = 2 * base_amount.
Proof.
  intros Hval. unfold skewed_amounts. cbn [fst snd]. decimals. field. exact Hval.
Qed.

(** X9. With non-negative balances and a positive price the min_order
    floor never binds on a refreshing tick: each quoted size is above
    0.00125 (a quarter of the smallest base amount), and the two sizes
    together are between 0.01 and 0.0226. *)
Theorem refreshing_tick_sizes (h : host) (s : strategy) :
  (maxlen <= length (window_after h s))%nat ->
  total_value_of h <> 0 ->
  create_timestamp s <= current_timestamp h ->
  0 < tick_price h ->
  0 <= get_balance h "BTC" ->
  0 <= get_balance h "USDT" ->
  exists s' buy_order sell_order,
    on_tick h s =
      Ok (s', cancel_all_orders h
                ++ place_orders
                     (adjust_proposal_to_budget h [buy_order; sell_order])) /\
    0.00125 < amount buy_order /\
    0.00125 < amount sell_order /\
    0.01 < amount buy_order + amount sell_order < 0.0226.
Proof.
  intros Hfull Hval Hdue Hprice Hbtc Husdt.
  destruct (refreshing_tick_proposal h s Hfull Hval Hdue) as (v & Hv & Hpath).
  pose proof (spec_scale_positive_reading v Hv) as Hsc.
  unfold proposal_of, create_proposal in Hpath. cbv zeta in Hpath.
  fold (tick_price h) in Hpath.
  assert (Hvalue : 0 <= get_balance h "BTC" * tick_price h)
    by (apply Rmult_le_pos; lra).
  assert (Htot : 0 < total_value_of h).
  { unfold total_value_of in *. fold (tick_price h) in *. lra. }
  assert (Hshare : 0 <= get_balance h "BTC" * tick_price h <= total_value_of h).
  { unfold total_value_of. fold (tick_price h). lra. }
  destruct (skewed_amounts_share (0.01 * spec_scale v) _ _ Htot Hshare)
    as [Hb Hs]; [lra|].
  assert (Hsum := skew_pre_floor_sum (0.01 * spec_scale v)
                    (get_balance h "BTC" * tick_price h) (total_value_of h) Hval).
  set (pre := skewed_amounts (0.01 * spec_scale v)
                (get_balance h "BTC" * tick_price h) (total_value_of h)) in *.
  eexists _, _, _. split; [exact Hpath|].
  cbn [amount]. unfold floor_amounts. cbn [fst snd].
  rewrite !Rmax_left by lra. lra.
Qed.

Lemma refreshing_tick_sizes_witness :
  exists s' buy_order sell_order,
    on_tick example_host example_warm =
      Ok (s', cancel_all_orders example_host
                ++ place_orders
                     (adjust_proposal_to_budget example_host
                                                [buy_order; sell_order])) /\
    0.00125 < amount buy_order /\
    0.00125 < amount sell_order /\
    0.01 < amount buy_order + amount sell_order < 0.0226.
Proof.
  apply (refreshing_tick_sizes example_host example_warm).
  - simpl. unfold maxlen. lia.
  - unfold total_value_of. simpl. lra.
  - simpl. lra.
  - unfold tick_price. simpl. lra.
  - simpl. lra.
  - simpl. lra.
Defined.



(** ** More on the volatility reading *)

Lemma np_diff_length (l : list npfloat) :
  length (np_diff l) = pred (length l).
Proof.
  induction l as [|a l IH]; [reflexivity|].
  destruct l as [|b l]; [reflexivity|].
  change (np_diff (a :: b :: l)) with (fsub b a :: np_diff (b :: l)).
  simpl length in *. rewrite IH. reflexivity.
Qed.

Lemma fsub_finite (a b : npfloat) :
  isfinite (fsub a b) = true -> isfinite a = true /\ isfinite b = true.
Proof. destruct a, b; simpl; intros H; try discriminate; auto. Qed.

Lemma np_diff_finite (l : list npfloat) (xs : list R) :
  (2 <= length l)%nat ->
  np_diff l = map Fin xs ->
  forall v, In v l -> isfinite v = true.
Proof.
  revert xs. induction l as [|a l IH]; intros xs Hlen Heq v Hin.
  - simpl in Hlen. lia.
  - destruct l as [|b l]; [simpl in Hlen; lia|].
    change (np_diff (a :: b :: l)) with (fsub b a :: np_diff (b :: l)) in Heq.
    destruct xs as [|x xs]; [discriminate|].
    simpl map in Heq. injection Heq as Hhead Htail.
    assert (Hfin : isfinite (fsub b a) = true) by (rewrite Hhead; reflexivity).
    apply fsub_finite in Hfin as [Hb Ha].
    destruct Hin as [<- | Hin]; [exact Ha|].
    destruct l as [|c l].
    + destruct Hin as [<- | []]. exact Hb.
    + apply (IH xs); [simpl; lia | exact Htail | exact Hin].
Qed.

(** X12. An array holding a NaN or an infinity anywhere gives exactly the
    floor 1e-4, whatever the other prices are. *)
Theorem non_finite_price_gives_epsilon (prices : list npfloat) :
  (exists x, In x prices /\ isfinite x = false) ->
  volatility_of_prices prices = Fin 0.0001.
Proof.
  intros (x & Hin & Hx). unfold volatility_of_prices.
  destruct (existsb fle0 prices) eqn:Hany; [reflexivity|].
  cbv zeta.
  destruct (np_std_cases (np_diff (map flog prices)))
    as [-> | (xs & Hne & Hfin & _)]; [reflexivity|].
  exfalso.
  assert (Hlen : (2 <= length (map flog prices))%nat).
  { apply (f_equal (@length npfloat)) in Hfin.
    rewrite np_diff_length, length_map in Hfin.
    destruct xs; [congruence|]. simpl in Hfin. rewrite length_map. lia. }
  pose proof (np_diff_finite _ _ Hlen Hfin (flog x) (in_map flog _ _ Hin))
    as Hlog.
  assert (Hnot : fle0 x = false).
  { destruct (fle0 x) eqn:Hle; [|reflexivity].
    assert (existsb fle0 prices = true)
      by (apply existsb_exists; exists x; auto).
    congruence. }
  destruct x; simpl in *; discriminate.
Qed.

Lemma non_finite_price_gives_epsilon_witness :
  volatility_of_prices [Fin 100; Fin 101; NaN; Fin 99; PosInf] = Fin 0.0001.
Proof.
  apply (non_finite_price_gives_epsilon [Fin 100; Fin 101; NaN; Fin 99; PosInf]).
  exists NaN. split; [simpl; auto | reflexivity].
Defined.

(** X13. An array of fewer than two prices has no return to measure:
    [np.std] of the empty array is NaN and the reading is the floor
    1e-4. *)
Theorem short_window_gives_epsilon (prices : list npfloat) :
  (length prices <= 1)%nat ->
  volatility_of_prices prices = Fin 0.0001.
Proof.
  intros Hlen. unfold volatility_of_prices.
  destruct (existsb fle0 prices); [reflexivity|].
  destruct prices as [|x [|y t]]; [| |simpl in Hlen; lia];
    unfold np_std, np_sum; simpl;
    rewrite !Reqb_true by reflexivity; reflexivity.
Qed.

Lemma short_window_gives_epsilon_witness :
  volatility_of_prices [Fin 100] = Fin 0.0001.
Proof.
  apply (short_window_gives_epsilon [Fin 100]). simpl. lia.
Defined.


(** ** Placing orders *)

Lemma place_orders_cons (o : OrderCandidate) (p : list OrderCandidate) :
  place_orders (o :: p) = place_order exchange o ++ place_orders p.
Proof. reflexivity. Qed.

Lemma place_orders_all_submits (proposal : list OrderCandidate) :
  forallb is_submit (place_orders proposal) = true.
Proof.
  induction proposal as [|o proposal IH]; [reflexivity|].
  rewrite place_orders_cons. unfold place_order.
  destruct (order_side o); simpl; exact IH.
Qed.

Lemma place_orders_filter (proposal : list OrderCandidate) :
  place_orders proposal = place_orders (filter is_buy_or_sell proposal).
Proof.
  induction proposal as [|o proposal IH]; [reflexivity|].
  cbn [filter]. unfold is_buy_or_sell at 1.
  destruct (order_side o) eqn:Hside;
    rewrite ?place_orders_cons, IH; [reflexivity | reflexivity |].
  unfold place_order. rewrite Hside. reflexivity.
Qed.

Lemma place_orders_sizes_prices (proposal : list OrderCandidate) :
  map submitted_size_price (place_orders proposal)
    = map (fun order => (amount order, price order))
          (filter is_buy_or_sell proposal).
Proof.
  induction proposal as [|o proposal IH]; [reflexivity|].
  rewrite place_orders_cons. cbn [filter].
  unfold is_buy_or_sell at 1, place_order.
  destruct (order_side o); simpl; rewrite IH; reflexivity.
Qed.

(** X15. [place_orders] makes one submit call per BUY or SELL candidate,
    in the order of the proposal and with the candidate's size and price,
    and silently skips a candidate of any other side; it makes no other
    call, and placing a concatenation is placing the parts one after the
    other. *)
Theorem place_orders_spec :
  (forall p1 p2 : list OrderCandidate,
     place_orders (p1 ++ p2) = place_orders p1 ++ place_orders p2) /\
  (forall proposal : list OrderCandidate,
     forallb is_submit (place_orders proposal) = true /\
     place_orders proposal = place_orders (filter is_buy_or_sell proposal) /\
     length (place_orders proposal)
       = length (filter is_buy_or_sell proposal) /\
     map submitted_size_price (place_orders proposal)
       = map (fun order => (amount order, price order))
             (filter is_buy_or_sell proposal)).
Proof.
  split.
  - intros p1 p2. unfold place_orders. apply flat_map_app.
  - intros proposal.
    split; [apply place_orders_all_submits|].
    split; [apply place_orders_filter|].
    split; [|apply place_orders_sizes_prices].
    rewrite <- (length_map submitted_size_price), place_orders_sizes_prices.
    apply length_map.
Qed.

(** ** Splitting the trading pair *)

Lemma string_app_nil_r (s : string) : (s ++ "")%string = s.
Proof. induction s as [|c s IH]; simpl; [reflexivity | rewrite IH; reflexivity]. Qed.

Lemma string_app_assoc (a b c : string) :
  ((a ++ b) ++ c)%string = (a ++ (b ++ c))%string.
Proof. induction a as [|x a IH]; simpl; [reflexivity | rewrite IH; reflexivity]. Qed.

Lemma count_char_app (c : ascii) (a b : string) :
  count_char c (a ++ b) = (count_char c a + count_char c b)%nat.
Proof. induction a as [|x a IH]; simpl; [reflexivity | rewrite IH; lia]. Qed.

Lemma split_aux_nonempty (sep : ascii) (s cur : string) :
  exists piece rest, split_aux sep s cur = piece :: rest.
Proof.
  revert cur. induction s as [|c s IH]; intros cur; simpl.
  - eexists _, _. reflexivity.
  - destruct (Ascii.eqb c sep); [eexists _, _; reflexivity | apply IH].
Qed.

Lemma join_split_aux (sep : ascii) (s cur : string) :
  join sep (split_aux sep s cur) = (cur ++ s)%string.
Proof.
  revert cur. induction s as [|c s IH]; intros cur; simpl.
  - symmetry. apply string_app_nil_r.
  - destruct (Ascii.eqb c sep) eqn:Hc.
    + apply Ascii.eqb_eq in Hc. subst c.
      specialize (IH EmptyString).
      destruct (split_aux_nonempty sep s EmptyString) as (piece & rest & Hs).
      rewrite Hs in *. unfold join in *.
      change (String.concat (String sep "") (cur :: piece :: rest))
        with (cur ++ String sep "" ++ String.concat (String sep "") (piece :: rest))%string.
      rewrite IH. reflexivity.
    + rewrite IH, string_app_assoc. reflexivity.
Qed.

Lemma split_aux_length (sep : ascii) (s cur : string) :
  length (split_aux sep s cur) = S (count_char sep s).
Proof.
  revert cur. induction s as [|c s IH]; intros cur; simpl; [reflexivity|].
  destruct (Ascii.eqb c sep); simpl; rewrite IH; reflexivity.
Qed.

Lemma split_aux_pieces (sep : ascii) (s cur : string) :
  count_char sep cur = 0%nat ->
  Forall (fun piece => count_char sep piece = 0%nat) (split_aux sep s cur).
Proof.
  revert cur. induction s as [|c s IH]; intros cur Hcur; simpl.
  - constructor; [exact Hcur | constructor].
  - destruct (Ascii.eqb c sep) eqn:Hc.
    + constructor; [exact Hcur | apply IH; reflexivity].
    + apply IH. rewrite count_char_app. simpl. rewrite Hc, Hcur. reflexivity.
Qed.

(** X16. [split] on a separator character is inverted by [join]: joining
    the pieces with the separator gives the string back; there is one
    piece more than the string has separators, and no piece holds the
    separator.  So a trading pair splits into exactly base and quote iff
    it holds exactly one "-". *)
Theorem split_join_roundtrip (s : string) (sep : ascii) :
  join sep (split s sep) = s /\
  length (split s sep) = S (count_char sep s) /\
  Forall (fun piece => count_char sep piece = 0%nat) (split s sep).
Proof.
  unfold split. split; [apply join_split_aux|].
  split; [apply split_aux_length | apply split_aux_pieces; reflexivity].
Qed.

(** ** A skipped tick does not arm the timer *)

(** X17. A tick skipped for zero portfolio value leaves the timer alone,
    so when the timer had elapsed, the next tick with a non-zero value
    and a clock that has not gone back runs the cancel/replace cycle at
    once. *)
Theorem skip_then_refresh (h1 h2 : host) (s : strategy) :
  (maxlen <= length (window_after h1 s))%nat ->
  total_value_of h1 = 0 ->
  create_timestamp s <= current_timestamp h1 ->
  current_timestamp h1 <= current_timestamp h2 ->
  total_value_of h2 <> 0 ->
  exists s1 s2 buy_order sell_order,
    on_tick h1 s = Ok (s1, [warning_zero_value]) /\
    on_tick h2 s1 =
      Ok (s2, cancel_all_orders h2
                ++ place_orders
                     (adjust_proposal_to_budget h2 [buy_order; sell_order])) /\
    create_timestamp s2 = current_timestamp h2 + 30.
Proof.
  intros Hfull Hzero Hdue Hclock Hval.
  pose proof Hfull as Hfull1. apply Nat.ltb_ge in Hfull1.
  destruct (on_tick_full_window h1 s Hfull1) as (v1 & _ & _ & Hp1).
  rewrite Reqb_true in Hp1 by exact Hzero.
  set (s1 := mkStrategy (window_after h1 s) (create_timestamp s)) in *.
  assert (Hfull2 : (maxlen <= length (window_after h2 s1))%nat).
  { apply Nat.ltb_ge.
    apply (window_after_stays_full h1 h2 s s1 Hfull). reflexivity. }
  assert (Hdue2 : create_timestamp s1 <= current_timestamp h2).
  { unfold s1. cbn [create_timestamp]. lra. }
  destruct (refreshing_tick_proposal h2 s1 Hfull2 Hval Hdue2)
    as (v2 & _ & Hp2).
  unfold proposal_of, create_proposal in Hp2. cbv zeta in Hp2.
  eexists _, _, _, _. split; [exact Hp1|]. split; [exact Hp2|]. reflexivity.
Qed.

Lemma skip_then_refresh_witness :
  exists s1 s2 buy_order sell_order,
    on_tick example_broke example_warm = Ok (s1, [warning_zero_value]) /\
    on_tick example_host s1 =
      Ok (s2, cancel_all_orders example_host
                ++ place_orders
                     (adjust_proposal_to_budget example_host
                                                [buy_order; sell_order])) /\
    create_timestamp s2 = current_timestamp example_host + 30.
Proof.
  apply (skip_then_refresh example_broke example_host example_warm).
  - simpl. unfold maxlen. lia.
  - unfold total_value_of. simpl. lra.
  - simpl. lra.
  - simpl. lra.
  - unfold total_value_of. simpl. lra.
Defined.
